(** * A shallow embedding of the gradus pipeline engines

    The repository holds three pipeline engines written in Python:
    - [steppy] (src/steppy/base.py, src/steppy/adapter.py): recursive
      [Step] objects with on-disk caching and an [Adapter];
    - [steps] (src/steps/base.py): the older version of the same engine,
      with a dict adapter carrying reduction functions;
    - [millet] (src/millet/core): the [MultiPipeline] graph container run
      in lexicographic topological order.

    Python data are modelled by the type [value]; Python exceptions by
    [exn]; every fallible function returns a [result]. Dicts are
    association lists kept in insertion order, as Python dicts are. *)

From Stdlib Require Import String List ZArith Bool Lia.
Import ListNotations.

Set Warnings "-register-all".

(** ** Python values and exceptions *)

Inductive value : Type :=
| VNone
| VInt (z : Z)
| VStr (s : string)
| VTuple (l : list value)
| VList (l : list value)
| VDict (d : list (value * value))
| VFun (f : nat).            (** a function object, by identity *)

(** A payload: a step output, a dict from [str] keys to values. *)
Definition payload := list (string * value).

Inductive exn : Type :=
| KeyError
| IndexError
| TypeError
| ValueError (msg : string)
| FileNotFoundError
| SameFileError                (** [shutil.SameFileError] *)
| AttributeError
| AssertionError
| RecursionError
| AdapterError (msg : string)
| StepsError (msg : string)
| MilletNameException
| MilletTypeException
| NetworkXError
| NetworkXUnfeasible.

Inductive result (A : Type) : Type :=
| Ok (a : A)
| Err (e : exn).
Arguments Ok {A} a.
Arguments Err {A} e.

Definition bind {A B} (r : result A) (k : A -> result B) : result B :=
  match r with Ok a => k a | Err e => Err e end.

Notation "x <- r ;; k" := (bind r (fun x => k))
  (at level 61, r at next level, right associativity).

(** [for x in l: acc = f(acc, x)], stopping at the first exception. *)
Fixpoint fold_res {A B} (f : B -> A -> result B) (l : list A) (acc : B)
  : result B :=
  match l with
  | [] => Ok acc
  | x :: l' => acc' <- f acc x ;; fold_res f l' acc'
  end.

(** [[f(x) for x in l]] *)
Fixpoint map_res {A B} (f : A -> result B) (l : list A) : result (list B) :=
  match l with
  | [] => Ok []
  | x :: l' => y <- f x ;; ys <- map_res f l' ;; Ok (y :: ys)
  end.

(** ** Dicts with [str] keys *)

Fixpoint dict_get {V} (d : list (string * V)) (k : string) : option V :=
  match d with
  | [] => None
  | (k', v) :: d' => if String.eqb k k' then Some v else dict_get d' k
  end.

(** [d[k] = v]: an existing key keeps its place, a new key goes last. *)
Fixpoint dict_set {V} (d : list (string * V)) (k : string) (v : V)
  : list (string * V) :=
  match d with
  | [] => [(k, v)]
  | (k', v') :: d' =>
      if String.eqb k k' then (k', v) :: d' else (k', v') :: dict_set d' k v
  end.

(** [d[k]], raising [KeyError] on a missing key. *)
Definition dict_lookup {V} (d : list (string * V)) (k : string) : result V :=
  match dict_get d k with Some v => Ok v | None => Err KeyError end.

(** [d.update(e)] *)
Definition dict_update {V} (d e : list (string * V)) : list (string * V) :=
  fold_left (fun acc kv => dict_set acc (fst kv) (snd kv)) e d.

Definition dict_keys {V} (d : list (string * V)) : list string := map fst d.

(** ** Equality and hashing of Python values (for dict keys) *)

Fixpoint hashable (v : value) : bool :=
  match v with
  | VTuple l => forallb hashable l
  | VList _ | VDict _ => false
  | _ => true
  end.

Fixpoint py_eqb (a b : value) : bool :=
  let fix list_eqb (l1 l2 : list value) : bool :=
    match l1, l2 with
    | [], [] => true
    | x :: l1', y :: l2' => py_eqb x y && list_eqb l1' l2'
    | _, _ => false
    end in
  match a, b with
  | VNone, VNone => true
  | VInt x, VInt y => Z.eqb x y
  | VStr x, VStr y => String.eqb x y
  | VTuple l1, VTuple l2 => list_eqb l1 l2
  | VList l1, VList l2 => list_eqb l1 l2
  | VFun f, VFun g => Nat.eqb f g
  | _, _ => false
  end.

(** [d[k] = v] on a dict with arbitrary hashable keys. *)
Fixpoint vdict_set (d : list (value * value)) (k v : value)
  : list (value * value) :=
  match d with
  | [] => [(k, v)]
  | (k', v') :: d' =>
      if py_eqb k k' then (k', v) :: d' else (k', v') :: vdict_set d' k v
  end.

(** ** steppy.adapter.Adapter *)

Module Adapter.

(** [Adapter._construct_element]: the nested [try] turns a missing input
    and a missing key into two different [AdapterError]s. *)
Definition _construct_element (all_inputs : list (string * payload))
    (input_name key : string) : result value :=
  match dict_get all_inputs input_name with
  | None => Err (AdapterError
      ("No such input: '" ++ input_name ++ "'")%string)
  | Some input_results =>
      match dict_get input_results key with
      | Some v => Ok v
      | None => Err (AdapterError
          ("Input '" ++ input_name ++ "' didn't have '" ++ key
           ++ "' in its result.")%string)
      end
  end.

(** [Adapter._construct]: dispatch on the shape of the recipe. A dict
    comprehension evaluates each key before its value. *)
Fixpoint _construct (all_inputs : list (string * payload)) (recipe : value)
  : result value :=
  let fix construct_all (l : list value) : result (list value) :=
    match l with
    | [] => Ok []
    | r :: l' =>
        v <- _construct all_inputs r ;;
        vs <- construct_all l' ;; Ok (v :: vs)
    end in
  let fix construct_items (acc : list (value * value))
      (items : list (value * value)) : result (list (value * value)) :=
    match items with
    | [] => Ok acc
    | (rk, rv) :: items' =>
        k <- _construct all_inputs rk ;;
        v <- _construct all_inputs rv ;;
        if hashable k then construct_items (vdict_set acc k v) items'
        else Err TypeError
    end in
  match recipe with
  | VTuple [VStr input_name; VStr key] =>
      _construct_element all_inputs input_name key
  | VTuple tup => vs <- construct_all tup ;; Ok (VTuple vs)
  | VList lst => vs <- construct_all lst ;; Ok (VList vs)
  | VDict dic => d <- construct_items [] dic ;; Ok (VDict d)
  | constant => Ok constant
  end.

(** [Adapter.adapt] *)
Definition adapt (adapting_recipes : list (string * value))
    (all_inputs : list (string * payload)) : result payload :=
  fold_res (fun adapted nr =>
      v <- _construct all_inputs (snd nr) ;; Ok (dict_set adapted (fst nr) v))
    adapting_recipes [].

End Adapter.

(** [step_inputs] as a Python value: a dict of payloads. *)
Definition payload_to_value (p : payload) : value :=
  VDict (map (fun kv => (VStr (fst kv), snd kv)) p).

(** [iter(v)]: what a [for] loop or a tuple unpacking walks through. *)
Definition py_iter (v : value) : result (list value) :=
  match v with
  | VTuple l | VList l => Ok l
  | VStr s => Ok (map (fun c => VStr (String c EmptyString)) (list_ascii_of_string s))
  | VDict d => Ok (map fst d)
  | _ => Err TypeError
  end.

(** [a, b = v] *)
Definition unpack2 (v : value) : result (value * value) :=
  l <- py_iter v ;;
  match l with
  | [] => Err (ValueError "not enough values to unpack (expected 2, got 0)")
  | [_] => Err (ValueError "not enough values to unpack (expected 2, got 1)")
  | [a; b] => Ok (a, b)
  | _ => Err (ValueError "too many values to unpack (expected 2)")
  end.

(** [len(v)] *)
Definition py_len (v : value) : result nat :=
  match v with
  | VTuple l | VList l => Ok (length l)
  | VStr s => Ok (String.length s)
  | VDict d => Ok (length d)
  | _ => Err TypeError
  end.

(** [d[k]] on a dict with [str] keys, for a key given as a Python value. *)
Definition py_getitem {V} (d : list (string * V)) (k : value) : result V :=
  match k with
  | VStr s => dict_lookup d s
  | _ => if hashable k then Err KeyError else Err TypeError
  end.

(** ** steps/base.py: [Step.adapt] and [Step.unpack] *)

Module Steps.

(** A reduction function: the module function [take_first_inputs] or a
    Python value to be called. *)
Inductive reducer := TakeFirst | Func (f : value).

Section Adapt.

(** Calling a user function object on one argument. *)
Variable py_call : nat -> value -> result value.

(** Modelled from the spec: [steps.adapters.take_first_inputs], whose
    module (src/steps/adapters.py) is not in the sources; the spec says
    the default reduction is "take the first item of the list". *)
Definition take_first_inputs (raw_inputs : list value) : result value :=
  match raw_inputs with
  | x :: _ => Ok x
  | [] => Err IndexError
  end.

Definition call_reducer (func : reducer) (raw_inputs : list value)
  : result value :=
  match func with
  | TakeFirst => take_first_inputs raw_inputs
  | Func (VFun f) => py_call f (VList raw_inputs)
  | Func _ => Err TypeError
  end.

(** [[step_inputs[step_name][step_var] for step_name, step_var in step_mapping]] *)
Definition raw_inputs_of (step_inputs : list (string * payload))
    (step_mapping : value) : result (list value) :=
  items <- py_iter step_mapping ;;
  map_res (fun it =>
      nk <- unpack2 it ;;
      p <- py_getitem step_inputs (fst nk) ;;
      py_getitem p (snd nk))
    items.

(** One entry [adapted_name: mapping] of the adapter dict. *)
Definition adapt_entry (step_inputs : list (string * payload)) (mapping : value)
  : result value :=
  match mapping with
  | VStr m => p <- dict_lookup step_inputs m ;; Ok (payload_to_value p)
  | _ =>
      n <- py_len mapping ;;
      sf <- (if Nat.eqb n 2 then
               pr <- unpack2 mapping ;; Ok (fst pr, Func (snd pr))
             else if Nat.eqb n 1 then Ok (mapping, TakeFirst)
             else Err (ValueError "wrong mapping specified")) ;;
      raw <- raw_inputs_of step_inputs (fst sf) ;;
      call_reducer (snd sf) raw
  end.

(** [Step.adapt] *)
Definition adapt (adapter : list (string * value))
    (step_inputs : list (string * payload)) : result payload :=
  fold_res (fun adapted nm =>
      v <- adapt_entry step_inputs (snd nm) ;; Ok (dict_set adapted (fst nm) v))
    adapter [].

End Adapt.

(** [Step.unpack]: [unpacked_steps = {**unpacked_steps, **step_dict}] for
    every input in turn; later inputs silently overwrite earlier keys. *)
Definition unpack (step_inputs : list (string * payload)) : result payload :=
  Ok (fold_left (fun acc np => dict_update acc (snd np)) step_inputs []).

End Steps.

(** ** steppy/base.py: [Step._unpack] *)

Module Steppy.

Local Open Scope string_scope.

(** [repr] of a list of step names (names without quotes or escapes). *)
Definition repr_names (names : list string) : string :=
  "[" ++ String.concat ", " (map (fun n => "'" ++ n ++ "'") names) ++ "]".

Definition repeated_entry (kn : string * list string) : string :=
  "  '" ++ fst kn ++ "' present in steps " ++ repr_names (snd kn).

(** The two adjacent literals of the source are concatenated before
    [.join] is called, so the header is the separator of the entries. *)
Definition unpack_header : string :=
  "Could not unpack inputs. Following keys are present in multiple input steps:
" ++ "
".

(** [key_to_step_names[key].append(step_name)] for every key of a payload. *)
Definition add_step_keys (k2s : list (string * list string))
    (step_name : string) (step_dict : payload) : list (string * list string) :=
  fold_left (fun acc key =>
      dict_set acc key (match dict_get acc key with
                        | Some names => names ++ [step_name]
                        | None => [step_name]
                        end)%list)
    (dict_keys step_dict) k2s.

Definition _unpack (step_inputs : list (string * payload)) : result payload :=
  let '(unpacked_steps, key_to_step_names) :=
    fold_left (fun acc np =>
        (dict_update (fst acc) (snd np), add_step_keys (snd acc) (fst np) (snd np)))
      step_inputs ([], []) in
  let repeated_keys :=
    filter (fun kn => Nat.ltb 1 (length (snd kn))) key_to_step_names in
  match repeated_keys with
  | [] => Ok unpacked_steps
  | _ => Err (StepsError (String.concat unpack_header (map repeated_entry repeated_keys)))
  end.

End Steppy.

(** ** Objects with state: a state and exception monad *)

(** A method call on an object whose state is [S]: an exception leaves
    the state as it was when it was raised. *)
Definition st (S A : Type) := S -> result A * S.

Definition st_ret {S A} (a : A) : st S A := fun s => (Ok a, s).

Definition st_bind {S A B} (m : st S A) (k : A -> st S B) : st S B :=
  fun s => match m s with
           | (Ok a, s') => k a s'
           | (Err e, s') => (Err e, s')
           end.

Notation "x <-- m ;;; k" := (st_bind m (fun x => k))
  (at level 61, m at next level, right associativity).

(** ** Transformer classes (src/millet/core/base.py, src/steppy/base.py) *)

Module Transformers.

(** [SupervTransformer]: [fit(input_dict, superv_dict)] and
    [transform(input_dict)] are the subclass's; [fit_transform] is the
    base class method. *)
Record superv (S : Type) := {
  superv_fit : payload -> payload -> st S unit;
  superv_transform : payload -> st S payload }.

Definition superv_fit_transform {S} (t : superv S) (input_dict superv_dict : payload)
  : st S payload :=
  _ <-- superv_fit S t input_dict superv_dict ;;; superv_transform S t input_dict.

(** [UnsupervTransformer] *)
Record unsuperv (S : Type) := {
  unsuperv_fit : payload -> st S unit;
  unsuperv_transform : payload -> st S payload }.

Definition unsuperv_fit_transform {S} (t : unsuperv S) (input_dict : payload)
  : st S payload :=
  _ <-- unsuperv_fit S t input_dict ;;; unsuperv_transform S t input_dict.

(** steppy's [BaseTransformer]: every method takes the keyword arguments
    built by the step; [save] writes a file, [load] reads one. *)
Record base (S : Type) := {
  base_fit : payload -> st S unit;
  base_transform : payload -> st S payload;
  base_save : S -> value;
  base_load : value -> S -> S }.

Definition base_fit_transform {S} (t : base S) (kwargs : payload) : st S payload :=
  _ <-- base_fit S t kwargs ;;; base_transform S t kwargs.

(** The defaults of [BaseTransformer]: [fit] returns self, [transform]
    raises [NotImplementedError], [save] dumps [{}], [load] returns self. *)
Definition base_default {S} : base S := {|
  base_fit := fun _ => st_ret tt;
  base_transform := fun _ s => (Err TypeError, s);
  base_save := fun _ => VDict [];
  base_load := fun _ s => s |}.

End Transformers.

(** ** Association lists keyed by object identity *)

Fixpoint nget {V} (d : list (nat * V)) (k : nat) : option V :=
  match d with
  | [] => None
  | (k', v) :: d' => if Nat.eqb k k' then Some v else nget d' k
  end.

Fixpoint nset {V} (d : list (nat * V)) (k : nat) (v : V) : list (nat * V) :=
  match d with
  | [] => [(k, v)]
  | (k', v') :: d' =>
      if Nat.eqb k k' then (k', v) :: d' else (k', v') :: nset d' k v
  end.

(** [os.path.join(a, b)] *)
Definition path_join (a b : string) : string :=
  if String.prefix "/" b then b
  else if String.eqb a "" then b
  else if String.eqb (substring (String.length a - 1) 1 a) "/" then (a ++ b)%string
  else (a ++ "/" ++ b)%string.

(** ** The recursive [Step] engine (src/steppy/base.py, src/steps/base.py)

    Steps and transformer objects live in a heap, so that a step shared by
    several downstream steps, and the rebinding of [self.transformer] done
    by [transformer_is_cached], are modelled as in Python. Files are keyed
    by path. The trace records every call of a transformer method. *)

Module StepEngine.

(** [self.transformer]: a transformer object or another [Step]. *)
Inductive tref := TObj (oid : nat) | TStep (sid : nat).

Record stepr := mkStep {
  name : string;
  transformer : tref;
  exp_dir : string;
  input_data : list string;
  input_steps : list nat;
  adapter : option (list (string * value));
  cache_output : bool;
  save_output : bool;
  load_saved_output : bool;
  force_fitting : bool }.

Definition with_transformer (st : stepr) (t : tref) : stepr :=
  mkStep (name st) t (exp_dir st) (input_data st) (input_steps st) (adapter st)
    (cache_output st) (save_output st) (load_saved_output st) (force_fitting st).

(** What [joblib.dump] wrote: a step output or a transformer. *)
Inductive file := FOutput (p : payload) | FTransformer (v : value).

Inductive event :=
| EvFitTransform (step : string)
| EvTransform (step : string)
| EvLoad (step : string)
| EvSave (step : string).

Record tobj := mkTObj {
  t_class : Transformers.base value;
  t_state : value }.

Record world := mkWorld {
  steps : list (nat * stepr);
  objs : list (nat * tobj);
  files : list (string * file);
  trace : list event }.

Definition set_steps w x := mkWorld x (objs w) (files w) (trace w).
Definition set_objs w x := mkWorld (steps w) x (files w) (trace w).
Definition set_files w x := mkWorld (steps w) (objs w) x (trace w).
Definition log w e := mkWorld (steps w) (objs w) (files w) (trace w ++ [e]).

(** [_prepare_experiment_directories] *)
Definition exp_dir_transformers_step st :=
  path_join (path_join (exp_dir st) "transformers") (name st).
Definition exp_dir_outputs_step st :=
  path_join (path_join (exp_dir st) "outputs") (name st).
Definition exp_dir_tmp_step st :=
  path_join (path_join (exp_dir st) "tmp") (name st).

(** [os.path.exists] *)
Definition exists_ (w : world) (path : string) : bool :=
  match dict_get (files w) path with Some _ => true | None => false end.

(** [output_is_cached] and [output_is_saved] *)
Definition output_is_cached w st := exists_ w (exp_dir_tmp_step st).
Definition output_is_saved w st := exists_ w (exp_dir_outputs_step st).

(** [_load_output] *)
Definition _load_output (w : world) (path : string) : result payload :=
  match dict_get (files w) path with
  | Some (FOutput p) => Ok p
  | Some (FTransformer _) => Err TypeError
  | None => Err FileNotFoundError
  end.

(** [_save_output] *)
Definition _save_output (w : world) (p : payload) (path : string) : world :=
  set_files w (dict_set (files w) path (FOutput p)).

(** [transformer_is_cached]: when the transformer slot holds a [Step],
    [_copy_transformer] first rebinds it to that step's transformer and
    copies that step's persisted transformer file over this step's one.
    [shutil.copyfile] raises [FileNotFoundError] when the source file is
    missing, and [SameFileError] when the source is the copy's own path
    (both steps have the same name and experiment directory); a path names
    a file of [files] by its string. *)
Definition transformer_is_cached (sid : nat) (w : world) : result bool * world :=
  match nget (steps w) sid with
  | None => (Err AttributeError, w)
  | Some st =>
      match transformer st with
      | TObj _ => (Ok (exists_ w (exp_dir_transformers_step st)), w)
      | TStep rsid =>
          match nget (steps w) rsid with
          | None => (Err AttributeError, w)
          | Some rst =>
              let w1 := set_steps w (nset (steps w) sid (with_transformer st (transformer rst))) in
              let original := path_join (path_join (exp_dir rst) "transformers") (name rst) in
              let copy := path_join (path_join (exp_dir st) "transformers") (name st) in
              match dict_get (files w1) original with
              | None => (Err FileNotFoundError, w1)
              | Some f =>
                  if String.eqb original copy then (Err SameFileError, w1)
                  else
                    let w2 := set_files w1 (dict_set (files w1) copy f) in
                    (Ok (exists_ w2 (exp_dir_transformers_step st)), w2)
              end
          end
      end
  end.

(** A method call [self.transformer.m(...)] on the step's current
    transformer; a [Step] object has no transformer methods. *)
Definition call_transformer {A} (sid : nat)
    (m : Transformers.base value -> st value A) (w : world) : result A * world :=
  match nget (steps w) sid with
  | None => (Err AttributeError, w)
  | Some st =>
      match transformer st with
      | TStep _ => (Err AttributeError, w)
      | TObj oid =>
          match nget (objs w) oid with
          | None => (Err AttributeError, w)
          | Some o =>
              let '(r, s') := m (t_class o) (t_state o) in
              (r, set_objs w (nset (objs w) oid (mkTObj (t_class o) s')))
          end
      end
  end.

Definition file_content (w : world) (path : string) : value :=
  match dict_get (files w) path with
  | Some (FTransformer v) => v
  | Some (FOutput p) => payload_to_value p
  | None => VNone
  end.

(** [self.transformer.load(self.exp_dir_transformers_step)] *)
Definition load_transformer (sid : nat) (st : stepr) (w : world) : result unit * world :=
  let content := file_content w (exp_dir_transformers_step st) in
  call_transformer sid (fun c s => (Ok tt, Transformers.base_load value c content s))
    (log w (EvLoad (name st))).

(** [self.transformer.save(self.exp_dir_transformers_step)] *)
Definition save_transformer (sid : nat) (st : stepr) (w : world) : result unit * world :=
  match call_transformer sid (fun c s => (Ok (Transformers.base_save value c s), s)) w with
  | (Ok v, w1) =>
      (Ok tt, log (set_files w1 (dict_set (files w1) (exp_dir_transformers_step st)
                                   (FTransformer v))) (EvSave (name st)))
  | (Err e, w1) => (Err e, w1)
  end.

(** The tail shared by [_cached_fit_transform] and [_cached_transform]. *)
Definition store_outputs (st : stepr) (out : payload) (w : world) : world :=
  let w1 := if cache_output st then _save_output w out (exp_dir_tmp_step st) else w in
  if save_output st then _save_output w1 out (exp_dir_outputs_step st) else w1.

(** [Step._cached_fit_transform] *)
Definition _cached_fit_transform (sid : nat) (step_inputs : payload) (w : world)
  : result payload * world :=
  match transformer_is_cached sid w with
  | (Err e, w1) => (Err e, w1)
  | (Ok cached, w1) =>
      match nget (steps w1) sid with
      | None => (Err AttributeError, w1)
      | Some st =>
          let '(r, w2) :=
            if cached && negb (force_fitting st) then
              match load_transformer sid st w1 with
              | (Ok _, w') =>
                  call_transformer sid (fun c => Transformers.base_transform value c step_inputs)
                    (log w' (EvTransform (name st)))
              | (Err e, w') => (Err e, w')
              end
            else
              match call_transformer sid (fun c => Transformers.base_fit_transform c step_inputs)
                      (log w1 (EvFitTransform (name st))) with
              | (Ok out, w') =>
                  match save_transformer sid st w' with
                  | (Ok _, w'') => (Ok out, w'')
                  | (Err e, w'') => (Err e, w'')
                  end
              | (Err e, w') => (Err e, w')
              end in
          match r with
          | Ok out => (Ok out, store_outputs st out w2)
          | Err e => (Err e, w2)
          end
      end
  end.

(** [Step._cached_transform]: no fitting on this path. *)
Definition _cached_transform (sid : nat) (step_inputs : payload) (w : world)
  : result payload * world :=
  match transformer_is_cached sid w with
  | (Err e, w1) => (Err e, w1)
  | (Ok cached, w1) =>
      match nget (steps w1) sid with
      | None => (Err AttributeError, w1)
      | Some st =>
          if cached then
            match load_transformer sid st w1 with
            | (Ok _, w') =>
                match call_transformer sid (fun c => Transformers.base_transform value c step_inputs)
                        (log w' (EvTransform (name st))) with
                | (Ok out, w'') => (Ok out, store_outputs st out w'')
                | (Err e, w'') => (Err e, w'')
                end
            | (Err e, w') => (Err e, w')
            end
          else (Err (ValueError ("No transformer cached " ++ name st)%string), w1)
      end
  end.

(** [step_inputs[input_data_part] = data[input_data_part]] for every part. *)
Definition gather_input_data (data : list (string * payload)) (parts : list string)
  : result (list (string * payload)) :=
  fold_res (fun si part => p <- dict_lookup data part ;; Ok (dict_set si part p)) parts [].

Section Engine.

(** [self._adapt] or [self._unpack] ([self.adapt] or [self.unpack] in
    src/steps/base.py): the two engines differ only there. *)
Variable merge : stepr -> list (string * payload) -> result payload.

(** [for input_step in self.input_steps:
       step_inputs[input_step.name] = input_step.<call>(data)] *)
Fixpoint gather_steps (call : nat -> world -> result payload * world)
    (ids : list nat) (si : list (string * payload)) (w : world)
  : result (list (string * payload)) * world :=
  match ids with
  | [] => (Ok si, w)
  | i :: ids' =>
      match call i w with
      | (Ok out, w') =>
          match nget (steps w') i with
          | Some ist => gather_steps call ids' (dict_set si (name ist) out) w'
          | None => (Err AttributeError, w')
          end
      | (Err e, w') => (Err e, w')
      end
  end.

(** The [else] branch of [fit_transform] and [transform]: gather the
    inputs, adapt or unpack them, then run [_cached_fit_transform] or
    [_cached_transform] ([finish]). *)
Definition execute (call : nat -> world -> result payload * world)
    (finish : nat -> payload -> world -> result payload * world)
    (sid : nat) (st : stepr) (data : list (string * payload)) (w : world)
  : result payload * world :=
  match gather_input_data data (input_data st) with
  | Err e => (Err e, w)
  | Ok si0 =>
      match gather_steps call (input_steps st) si0 w with
      | (Err e, w1) => (Err e, w1)
      | (Ok si, w1) =>
          match merge st si with
          | Err e => (Err e, w1)
          | Ok step_inputs => finish sid step_inputs w1
          end
      end
  end.

(** [Step.fit_transform]. [fuel] is Python's recursion limit. *)
Fixpoint fit_transform (fuel : nat) (sid : nat) (data : list (string * payload))
    (w : world) {struct fuel} : result payload * world :=
  match fuel with
  | O => (Err RecursionError, w)
  | S fuel' =>
      match nget (steps w) sid with
      | None => (Err AttributeError, w)
      | Some st =>
          if output_is_cached w st && negb (force_fitting st) then
            (_load_output w (exp_dir_tmp_step st), w)
          else if output_is_saved w st && load_saved_output st && negb (force_fitting st) then
            (_load_output w (exp_dir_outputs_step st), w)
          else
            execute (fun i => fit_transform fuel' i data) _cached_fit_transform sid st data w
      end
  end.

(** [Step.transform] *)
Fixpoint transform (fuel : nat) (sid : nat) (data : list (string * payload))
    (w : world) {struct fuel} : result payload * world :=
  match fuel with
  | O => (Err RecursionError, w)
  | S fuel' =>
      match nget (steps w) sid with
      | None => (Err AttributeError, w)
      | Some st =>
          if output_is_cached w st then
            (_load_output w (exp_dir_tmp_step st), w)
          else if output_is_saved w st && load_saved_output st then
            (_load_output w (exp_dir_outputs_step st), w)
          else
            execute (fun i => transform fuel' i data) _cached_transform sid st data w
      end
  end.

End Engine.

(** [Step._adapt] and [Step._unpack] of src/steppy/base.py. An [Adapter]
    object is always truthy, so [if self.adapter] tests for [None]. *)
Definition steppy_merge (st : stepr) (step_inputs : list (string * payload))
  : result payload :=
  match adapter st with
  | Some recipes =>
      match Adapter.adapt recipes step_inputs with
      | Err (AdapterError _) =>
          Err (StepsError ("Error while adapting step '" ++ name st ++ "'")%string)
      | r => r
      end
  | None => Steppy._unpack step_inputs
  end.

(** [Step.adapt] and [Step.unpack] of src/steps/base.py: the adapter is a
    dict, falsy when empty. *)
Definition steps_merge (py_call : nat -> value -> result value) (st : stepr)
    (step_inputs : list (string * payload)) : result payload :=
  match adapter st with
  | Some (_ :: _ as a) => Steps.adapt py_call a step_inputs
  | _ => Steps.unpack step_inputs
  end.

(** A fresh object identity. *)
Definition fresh_id {V} (d : list (nat * V)) : nat := S (fold_left Nat.max (map fst d) 0).

(** [Step._prepare_experiment_directories] of src/steppy/base.py, on an
    instance whose [name] attribute may not be set yet: it computes the
    three directories under [exp_dir], then reads [self.name] for the
    paths of the step ([os.makedirs] is not modelled: [world] holds files
    only). *)
Definition _prepare_experiment_directories (exp_dir : string) (self_name : option string)
  : result (string * string * string) :=
  let exp_dir_transformers := path_join exp_dir "transformers" in
  let exp_dir_outputs := path_join exp_dir "outputs" in
  let exp_dir_tmp := path_join exp_dir "tmp" in
  match self_name with
  | None => Err AttributeError
  | Some n => Ok (path_join exp_dir_transformers n, path_join exp_dir_outputs n,
                  path_join exp_dir_tmp n)
  end.

(** [Step.__init__] of src/steppy/base.py: it asserts the types of its
    arguments, sets [exp_dir] and calls [_prepare_experiment_directories]
    before [self.name = name] (line 113), then stores its fields; nothing
    compares [name] with the names of the [input_steps]. *)
Definition step_init (w : world) (name : string) (transformer : tref)
    (experiment_directory : option string) (input_data : option (list string))
    (input_steps : option (list nat)) (adapter : option (list (string * value)))
    (cache_output save_output load_saved_output force_fitting : bool)
  : result (nat * world) :=
  match experiment_directory with
  | None => Err AssertionError
  | Some exp_dir =>
      _ <- _prepare_experiment_directories exp_dir None ;;
      let sid := fresh_id (steps w) in
      let st := mkStep name transformer exp_dir
                  (match input_data with Some l => l | None => [] end)
                  (match input_steps with Some l => l | None => [] end)
                  adapter cache_output save_output load_saved_output force_fitting in
      Ok (sid, set_steps w (steps w ++ [(sid, st)]))
  end.

(** [Step._get_steps]: the dict [all_steps] from step names to steps,
    filled with the upstream steps first and the step itself last.
    [fuel] is Python's recursion limit. *)
Fixpoint _get_steps (fuel : nat) (w : world) (sid : nat) (all_steps : list (string * nat))
  : result (list (string * nat)) :=
  match fuel with
  | O => Err RecursionError
  | S fuel' =>
      match nget (steps w) sid with
      | None => Err AttributeError
      | Some st =>
          acc <- fold_res (fun acc i => _get_steps fuel' w i acc) (input_steps st) all_steps ;;
          Ok (dict_set acc (name st) sid)
      end
  end.

(** [Step.all_steps] *)
Definition all_steps (fuel : nat) (w : world) (sid : nat) : result (list (string * nat)) :=
  _get_steps fuel w sid [].

(** [Step.get_step]: [self.all_steps[name]]. *)
Definition get_step (fuel : nat) (w : world) (sid : nat) (n : string) : result nat :=
  l <- all_steps fuel w sid ;; dict_lookup l n.

(** [os.remove(path)] *)
Definition remove_file (w : world) (path : string) : world :=
  set_files w (filter (fun kv => negb (String.eqb (fst kv) path)) (files w)).

(** [Step._clean_cache] of src/steps/base.py *)
Definition _clean_cache (w : world) (sid : nat) : result world :=
  match nget (steps w) sid with
  | None => Err AttributeError
  | Some st =>
      if exists_ w (exp_dir_tmp_step st) then Ok (remove_file w (exp_dir_tmp_step st)) else Ok w
  end.

(** [Step.clean_cache] of src/steps/base.py: [_clean_cache] on every value
    of [self.all_steps]. *)
Definition clean_cache (fuel : nat) (w : world) (sid : nat) : result world :=
  l <- all_steps fuel w sid ;; fold_res (fun w ns => _clean_cache w (snd ns)) l w.

(** The dict [{'edges': set(), 'nodes': set()}]. *)
Record structure := mkStructure {
  s_edges : list (string * string);
  s_nodes : list string }.

Definition empty_structure : structure := mkStructure [] [].

(** [structure_dict['nodes'].add(n)] *)
Definition add_node (sd : structure) (n : string) : structure :=
  if existsb (String.eqb n) (s_nodes sd) then sd
  else mkStructure (s_edges sd) (s_nodes sd ++ [n]).

(** [structure_dict['edges'].add((u, v))] *)
Definition add_edge (sd : structure) (e : string * string) : structure :=
  if existsb (fun e' => String.eqb (fst e) (fst e') && String.eqb (snd e) (snd e')) (s_edges sd)
  then sd else mkStructure (s_edges sd ++ [e]) (s_nodes sd).

(** [Step._build_structure_dict] of src/steppy/base.py, the same code as
    [Step._get_graph_info] of src/steps/base.py. [fuel] is Python's
    recursion limit. *)
Fixpoint _build_structure_dict (fuel : nat) (w : world) (sid : nat) (sd : structure)
  : result structure :=
  match fuel with
  | O => Err RecursionError
  | S fuel' =>
      match nget (steps w) sid with
      | None => Err AttributeError
      | Some st =>
          sd1 <- fold_res (fun sd i =>
                   sd' <- _build_structure_dict fuel' w i sd ;;
                   match nget (steps w) i with
                   | Some ist => Ok (add_edge sd' (name ist, name st))
                   | None => Err AttributeError
                   end) (input_steps st) sd ;;
          let sd2 := add_node sd1 (name st) in
          Ok (fold_left (fun sd d => add_edge (add_node sd d) (d, name st)) (input_data st) sd2)
      end
  end.

(** [Step.upstream_pipeline_structure] of src/steppy/base.py and
    [Step.graph_info] of src/steps/base.py *)
Definition upstream_pipeline_structure (fuel : nat) (w : world) (sid : nat)
  : result structure :=
  _build_structure_dict fuel w sid empty_structure.

(** *** Notions used to state properties of the engine *)

(** Every step of [w] is still there in [w'], with only its transformer
    slot possibly rebound. *)
Definition steps_kept (w w' : world) : Prop :=
  forall sid st, nget (steps w) sid = Some st ->
  exists t, nget (steps w') sid = Some (with_transformer st t).

(** The trace of [w'] extends that of [w] by events satisfying [P]. *)
Definition trace_grows_by (P : event -> Prop) (w w' : world) : Prop :=
  exists ev, trace w' = (trace w ++ ev)%list /\ Forall P ev.

Definition loads_or_transforms (e : event) : Prop :=
  match e with EvLoad _ | EvTransform _ => True | _ => False end.

(** [path w k sid j]: the step [j] is reached from the step [sid] along
    [k] links of [input_steps], every step on the way being a step of [w]. *)
Inductive path (w : world) : nat -> nat -> nat -> Prop :=
| path_nil sid st :
    nget (steps w) sid = Some st -> path w 0 sid sid
| path_cons k sid st i j :
    nget (steps w) sid = Some st -> In i (input_steps st) -> path w k i j ->
    path w (S k) sid j.

(** Every input step of a step of [w] is a step of [w]: the [Step]
    objects a pipeline refers to exist. *)
Definition inputs_defined (w : world) : Prop :=
  forall i st j, nget (steps w) i = Some st -> In j (input_steps st) ->
  exists st', nget (steps w) j = Some st'.

(** Every entry [n: i] of a name dict points at a step named [n]. *)
Definition names_sound (w : world) (acc : list (string * nat)) : Prop :=
  forall n i, dict_get acc n = Some i -> exists st, nget (steps w) i = Some st /\ name st = n.

(** [p] is the tmp output path of the step of the entry [ns]. *)
Definition is_tmp_of (w : world) (p : string) (ns : string * nat) : bool :=
  match nget (steps w) (snd ns) with
  | Some st => String.eqb p (exp_dir_tmp_step st)
  | None => false
  end.

(** Every edge leaves a node; it enters a node or a name in [pending]. *)
Definition closed_but (pending : list string) (sd : structure) : Prop :=
  forall u v, In (u, v) (s_edges sd) -> In u (s_nodes sd) /\ (In v (s_nodes sd) \/ In v pending).

End StepEngine.

(** ** millet: [MultiPipeline] (src/millet/core/multipipeline.py)

    The networkx [DiGraph] keeps its nodes and, for every node, its
    in-edges in insertion order; node and edge attributes are records.
    The transformer object of a node lives in its [step] attribute (a
    transformer registered under two names is not shared in this model). *)

Module Millet.

(** The [step] attribute of a node: which base class the object is an
    instance of, with its methods and state. *)
Inductive mstep :=
| MDataLoader (load_data : payload -> result payload)
| MSuperv (t : Transformers.superv value) (state : value)
| MUnsuperv (t : Transformers.unsuperv value) (state : value)
| MOther.                       (** an instance of none of the three *)

(** Node attributes; a node created by [add_edge] has no [step]. *)
Record mnode := mkNode {
  step : option mstep;
  output : option payload }.

(** Edge attributes. *)
Record edata := mkEdata {
  source_data_keys : option (list (string * string));
  source_superv_keys : option (list (string * string)) }.

Record graph := mkGraph {
  nodes : list (string * mnode);
  edges : list ((string * string) * edata) }.

(** The pipeline object; [stdout] collects the lines printed by
    [clear_all_outputs] and by [run] before each node it runs. *)
Record multipipeline := mkMP {
  _graph : graph;
  stdout : list string }.

Definition empty_multipipeline : multipipeline := mkMP (mkGraph [] []) [].

Definition has_node (g : graph) (n : string) : bool :=
  match dict_get (nodes g) n with Some _ => true | None => false end.

Definition edge_eqb (e1 e2 : string * string) : bool :=
  String.eqb (fst e1) (fst e2) && String.eqb (snd e1) (snd e2).

Fixpoint edge_get (es : list ((string * string) * edata)) (e : string * string)
  : option edata :=
  match es with
  | [] => None
  | (e', d) :: es' => if edge_eqb e e' then Some d else edge_get es' e
  end.

Fixpoint edge_set (es : list ((string * string) * edata)) (e : string * string)
    (d : edata) : list ((string * string) * edata) :=
  match es with
  | [] => [(e, d)]
  | (e', d') :: es' =>
      if edge_eqb e e' then (e', d) :: es' else (e', d') :: edge_set es' e d
  end.

Definition has_edge (g : graph) (u v : string) : bool :=
  match edge_get (edges g) (u, v) with Some _ => true | None => false end.

(** [add_edge(u, v)] adds the missing end points as attribute-less nodes. *)
Definition add_edge (g : graph) (u v : string) : graph :=
  let ns := if has_node g u then nodes g else (nodes g ++ [(u, mkNode None None)])%list in
  let ns := if has_node (mkGraph ns []) v then ns else (ns ++ [(v, mkNode None None)])%list in
  mkGraph ns (edge_set (edges g) (u, v) (mkEdata None None)).

Definition set_node (mp : multipipeline) (n : string) (nd : mnode) : multipipeline :=
  mkMP (mkGraph (dict_set (nodes (_graph mp)) n nd) (edges (_graph mp))) (stdout mp).

Definition print (mp : multipipeline) (line : string) : multipipeline :=
  mkMP (_graph mp) (stdout mp ++ [line])%list.

(** [_check_add_step]. Registration returns the pipeline as it is when
    the call returns or raises. *)
Definition _check_add_step (mp : multipipeline) (s : mstep) (node_name : string)
  : result unit * multipipeline :=
  if has_node (_graph mp) node_name then (Err MilletNameException, mp)
  else (Ok tt, mkMP (mkGraph (nodes (_graph mp) ++ [(node_name, mkNode (Some s) None)])%list
                             (edges (_graph mp))) (stdout mp)).

(** [_connect_input_mapping] *)
Definition _connect_input_mapping (mp : multipipeline) (node_name : string)
    (input_mapping : list (string * (string * string))) : multipipeline :=
  fold_left (fun mp m =>
      let '(new_data_key, (src_name, src_key)) := m in
      let g := _graph mp in
      let g := if has_edge g src_name node_name then g else add_edge g src_name node_name in
      let d := match edge_get (edges g) (src_name, node_name) with
               | Some d => d | None => mkEdata None None end in
      let keys := match source_data_keys d with Some k => k | None => [] end in
      let d' := mkEdata (Some (dict_set keys new_data_key src_key)) (source_superv_keys d) in
      mkMP (mkGraph (nodes g) (edge_set (edges g) (src_name, node_name) d')) (stdout mp))
    input_mapping mp.

(** [_connect_superv_mapping] *)
Definition _connect_superv_mapping (mp : multipipeline) (node_name : string)
    (superv_mapping : list (string * (string * string))) : multipipeline :=
  fold_left (fun mp m =>
      let '(new_data_key, (src_name, src_key)) := m in
      let g := _graph mp in
      let g := if has_edge g src_name node_name then g else add_edge g src_name node_name in
      let d := match edge_get (edges g) (src_name, node_name) with
               | Some d => d | None => mkEdata None None end in
      let keys := match source_superv_keys d with Some k => k | None => [] end in
      let d' := mkEdata (source_data_keys d) (Some (dict_set keys new_data_key src_key)) in
      mkMP (mkGraph (nodes g) (edge_set (edges g) (src_name, node_name) d')) (stdout mp))
    superv_mapping mp.

(** [add_dataloader] *)
Definition add_dataloader (mp : multipipeline) (dataloader : mstep) (node_name : string)
  : result unit * multipipeline :=
  match dataloader with
  | MDataLoader _ => _check_add_step mp dataloader node_name
  | _ => (Err MilletTypeException, mp)
  end.

(** [add_superv] *)
Definition add_superv (mp : multipipeline) (transformer : mstep) (node_name : string)
    (input_mapping superv_mapping : list (string * (string * string)))
  : result unit * multipipeline :=
  match transformer with
  | MSuperv _ _ =>
      match _check_add_step mp transformer node_name with
      | (Ok _, mp1) =>
          let mp2 := _connect_input_mapping mp1 node_name input_mapping in
          (Ok tt, _connect_superv_mapping mp2 node_name superv_mapping)
      | (Err e, mp1) => (Err e, mp1)
      end
  | _ => (Err MilletTypeException, mp)
  end.

(** [add_unsuperv] *)
Definition add_unsuperv (mp : multipipeline) (transformer : mstep) (node_name : string)
    (input_mapping : list (string * (string * string))) : result unit * multipipeline :=
  match transformer with
  | MUnsuperv _ _ =>
      match _check_add_step mp transformer node_name with
      | (Ok _, mp1) => (Ok tt, _connect_input_mapping mp1 node_name input_mapping)
      | (Err e, mp1) => (Err e, mp1)
      end
  | _ => (Err MilletTypeException, mp)
  end.

(** [get_step]: the [step] attribute of a node. *)
Definition get_step (mp : multipipeline) (node_name : string) : option mstep :=
  match dict_get (nodes (_graph mp)) node_name with
  | Some nd => step nd
  | None => None
  end.

(** [get_step_output]: the node is known to exist where it is called. *)
Definition get_step_output (mp : multipipeline) (node_name : string) : option payload :=
  match dict_get (nodes (_graph mp)) node_name with
  | Some nd => output nd
  | None => None
  end.

(** [clear_all_outputs] *)
Definition clear_all_outputs (mp : multipipeline) : multipipeline :=
  fold_left (fun mp nn =>
      let mp := print mp ("[MultiPipeline] Clearing output of node_name: " ++ fst nn)%string in
      set_node mp (fst nn) (mkNode (step (snd nn)) None))
    (nodes (_graph mp)) mp.

(** ** Ancestors and the lexicographic topological order (networkx) *)

Definition mem (x : string) (l : list string) : bool := existsb (String.eqb x) l.

(** [set(l)], keeping first occurrences. *)
Definition dedupe (l : list string) : list string :=
  fold_left (fun a x => if mem x a then a else (a ++ [x])%list) l [].

(** The sources of the in-edges of [v], in insertion order. *)
Definition preds (g : graph) (v : string) : list string :=
  map (fun e => fst (fst e)) (filter (fun e => String.eqb (snd (fst e)) v) (edges g)).

(** One more layer of predecessors added to [acc]. *)
Definition add_preds (g : graph) (acc : list string) : list string :=
  fold_left (fun a v => fold_left (fun a u => if mem u a then a else (a ++ [u])%list) (preds g v) a)
    acc acc.

Fixpoint preds_closure (fuel : nat) (g : graph) (acc : list string) : list string :=
  match fuel with
  | O => acc
  | S f => preds_closure f g (add_preds g acc)
  end.

(** [networkx.ancestors(G, n)]: every node with a path to [n], [n] left out;
    a path has at most as many edges as there are nodes. *)
Definition ancestors (g : graph) (n : string) : result (list string) :=
  if has_node g n then
    Ok (filter (fun u => negb (String.eqb u n))
               (preds_closure (length (nodes g)) g (dedupe (preds g n))))
  else Err NetworkXError.

(** The predecessors of [v] inside the induced subgraph on [sub]. *)
Definition sub_preds (g : graph) (sub : list string) (v : string) : list string :=
  filter (fun u => mem u sub) (preds g v).

(** The nodes in networkx's heap: not yet yielded, every predecessor in
    the subgraph already yielded (a self-loop keeps a node out for good). *)
Definition available (g : graph) (sub done : list string) : list string :=
  filter (fun v => negb (mem v done) && forallb (fun u => mem u done) (sub_preds g sub v)) sub.

(** The least name in a list, by Python's [str] order. *)
Fixpoint min_name (l : list string) : option string :=
  match l with
  | [] => None
  | x :: l' =>
      match min_name l' with
      | Some y => if String.ltb y x then Some y else Some x
      | None => Some x
      end
  end.

(** [networkx.lexicographical_topological_sort(G.subgraph(sub))]: Kahn's
    algorithm popping the least name of the heap each time. The generator
    yields [order]; [cyclic] says it then raises [NetworkXUnfeasible]
    because nodes are left over. *)
Fixpoint lex_topo (fuel : nat) (g : graph) (sub done : list string) : list string * bool :=
  match fuel with
  | O => (done, existsb (fun v => negb (mem v done)) sub)
  | S f =>
      match min_name (available g sub done) with
      | None => (done, existsb (fun v => negb (mem v done)) sub)
      | Some v => lex_topo f g sub (done ++ [v])%list
      end
  end.

(** ** [MultiPipeline.run] *)

Definition in_edges (g : graph) (v : string) : list ((string * string) * edata) :=
  filter (fun e => String.eqb (snd (fst e)) v) (edges g).

(** The loop shared by [_translate_inputs] and [_translate_superv]:
    [new_dict[new_key] = self.get_step_output(src)[src_key]]; a source
    whose output is [None] raises [TypeError]. *)
Definition translate (mp : multipipeline) (node_name : string)
    (keys_of : edata -> option (list (string * string))) : result payload :=
  fold_res (fun new_dict e =>
      match keys_of (snd e) with
      | None => Ok new_dict
      | Some m =>
          fold_res (fun new_dict ks =>
              match get_step_output mp (fst (fst e)) with
              | None => Err TypeError
              | Some src_output =>
                  v <- dict_lookup src_output (snd ks) ;; Ok (dict_set new_dict (fst ks) v)
              end)
            m new_dict
      end)
    (in_edges (_graph mp) node_name) [].

Definition _translate_inputs mp n := translate mp n source_data_keys.
Definition _translate_superv mp n := translate mp n source_superv_keys.

(** The body of the loop of [run] for one node. *)
Definition run_node (input_info : payload) (fit_node_names : list string)
    (mp : multipipeline) (node_name : string) : result unit * multipipeline :=
  let mp := print mp ("[MultiPipeline] Running node " ++ node_name)%string in
  match dict_get (nodes (_graph mp)) node_name with
  | None => (Err KeyError, mp)
  | Some node =>
      let finish (s : mstep) (r : result payload) :=
        match r with
        | Ok out => (Ok tt, set_node mp node_name (mkNode (Some s) (Some out)))
        | Err e => (Err e, set_node mp node_name (mkNode (Some s) (output node)))
        end in
      match step node with
      | None => (Err KeyError, mp)
      | Some (MDataLoader f as s) => finish s (f input_info)
      | Some (MSuperv t state) =>
          match _translate_inputs mp node_name with
          | Err e => (Err e, mp)
          | Ok input_dict =>
              if mem node_name fit_node_names then
                match _translate_superv mp node_name with
                | Err e => (Err e, mp)
                | Ok superv_dict =>
                    let '(r, state') :=
                      Transformers.superv_fit_transform t input_dict superv_dict state in
                    finish (MSuperv t state') r
                end
              else
                let '(r, state') := Transformers.superv_transform value t input_dict state in
                finish (MSuperv t state') r
          end
      | Some (MUnsuperv t state) =>
          match _translate_inputs mp node_name with
          | Err e => (Err e, mp)
          | Ok input_dict =>
              let '(r, state') :=
                if mem node_name fit_node_names
                then Transformers.unsuperv_fit_transform t input_dict state
                else Transformers.unsuperv_transform value t input_dict state in
              finish (MUnsuperv t state') r
          end
      | Some MOther => (Err MilletTypeException, mp)
      end
  end.

Fixpoint run_nodes (input_info : payload) (fit_node_names : list string)
    (order : list string) (mp : multipipeline) : result unit * multipipeline :=
  match order with
  | [] => (Ok tt, mp)
  | n :: order' =>
      match run_node input_info fit_node_names mp n with
      | (Ok _, mp') => run_nodes input_info fit_node_names order' mp'
      | (Err e, mp') => (Err e, mp')
      end
  end.

(** The nodes [run] executes and the order it executes them in: the
    requested outputs and fit targets with their ancestors, as the nodes of
    [G.subgraph(...)] (in [G]'s node order), sorted. [Err TypeError] is
    [reduce(set.union, [])] failing on an empty sequence. *)
Definition run_plan (g : graph) (output_node_names fit_node_names : list string)
  : result (list string * bool) :=
  let up_to_steps_and_fit_steps := dedupe (output_node_names ++ fit_node_names) in
  match up_to_steps_and_fit_steps with
  | [] => Err TypeError
  | _ =>
      ancs <- map_res (ancestors g) up_to_steps_and_fit_steps ;;
      let names := dedupe (up_to_steps_and_fit_steps ++ concat ancs) in
      let sub := filter (fun n => mem n names) (map fst (nodes g)) in
      Ok (lex_topo (length sub) g sub [])
  end.

(** [run(input_info, output_node_names, fit_node_names)] *)
Definition run (mp : multipipeline) (input_info : payload)
    (output_node_names fit_node_names : list string)
  : result (list (string * option payload)) * multipipeline :=
  let mp1 := clear_all_outputs mp in
  match run_plan (_graph mp1) output_node_names fit_node_names with
  | Err e => (Err e, mp1)
  | Ok (order, cyclic) =>
      match run_nodes input_info fit_node_names order mp1 with
      | (Err e, mp2) => (Err e, mp2)
      | (Ok _, mp2) =>
          if cyclic then (Err NetworkXUnfeasible, mp2)
          else (Ok (fold_left (fun d n => dict_set d n (get_step_output mp2 n))
                      output_node_names []), mp2)
      end
  end.

End Millet.

(** ** Concrete pipelines used by the examples below *)

Module Fixtures.

Local Open Scope string_scope.

(** The Python builtin [sum] as function object 0. *)
Definition py_builtins (f : nat) (arg : value) : result value :=
  match f, arg with
  | O, VList l =>
      fold_res (fun acc x => match acc, x with
                             | VInt a, VInt b => Ok (VInt (a + b))
                             | _, _ => Err TypeError
                             end) l (VInt 0)
  | _, _ => Err TypeError
  end.

Definition pair_value (sk : string * string) : value :=
  VTuple [VStr (fst sk); VStr (snd sk)].

(** [IdentityOperation] of src/steppy/base.py: [transform] returns its
    keyword arguments; the other methods are [BaseTransformer]'s. *)
Definition identity_operation : Transformers.base value := {|
  Transformers.base_fit := fun _ => st_ret tt;
  Transformers.base_transform := fun kwargs => st_ret kwargs;
  Transformers.base_save := fun _ => VDict [];
  Transformers.base_load := fun _ s => s |}.

(** A step [s] with [force_fitting=True] whose output is cached in tmp. *)
Definition forced_step : StepEngine.stepr :=
  StepEngine.mkStep "s" (StepEngine.TObj 0) "/exp" ["input_1"] [] None
    false false false true.

Definition cached_world : StepEngine.world :=
  StepEngine.mkWorld [(1, forced_step)] [(0, StepEngine.mkTObj identity_operation VNone)]
    [("/exp/tmp/s", StepEngine.FOutput [("cached", VInt 1)])] [].




Definition data_1 : list (string * payload) := [("input_1", [("features", VInt 5)])].

(** [SimpleDataLoader] and [SimpleUnsupervTransformer] of
    src/millet/tests/core/test_pipeline.py. *)
Definition simple_dataloader : Millet.mstep :=
  Millet.MDataLoader (fun input_info => x <- dict_lookup input_info "X" ;; Ok [("X", x)]).

Definition simple_unsuperv : Millet.mstep :=
  Millet.MUnsuperv {|
    Transformers.unsuperv_fit := fun _ => st_ret tt;
    Transformers.unsuperv_transform := fun input_dict s =>
      (x <- dict_lookup input_dict "X" ;; Ok [("X", x)], s) |} VNone.

Definition and_then (r : result unit * Millet.multipipeline)
    (k : Millet.multipipeline -> result unit * Millet.multipipeline) :=
  match r with (Ok _, mp) => k mp | e => e end.

(** The diamond A -> B, A -> C, B -> D, C -> D, registered C before B. *)
Definition build_diamond : result unit * Millet.multipipeline :=
  and_then (Millet.add_dataloader Millet.empty_multipipeline simple_dataloader "A") (fun mp =>
  and_then (Millet.add_unsuperv mp simple_unsuperv "C" [("X", ("A", "X"))]) (fun mp =>
  and_then (Millet.add_unsuperv mp simple_unsuperv "B" [("X", ("A", "X"))]) (fun mp =>
  Millet.add_unsuperv mp (Millet.MUnsuperv {|
      Transformers.unsuperv_fit := fun _ => st_ret tt;
      Transformers.unsuperv_transform := fun input_dict => st_ret input_dict |} VNone)
    "D" [("X", ("B", "X")); ("Y", ("C", "X"))]))).

Definition diamond : Millet.multipipeline := snd build_diamond.

(** A graph holding a node whose step is of no recognised class; the
    registration methods refuse such a step, so it is built directly. *)
Definition other_pipeline : Millet.multipipeline :=
  Millet.mkMP (Millet.mkGraph [("A", Millet.mkNode (Some Millet.MOther) None)] []) [].

(** A steppy world holding one step named [s]. *)
Definition one_step_world : StepEngine.world :=
  StepEngine.mkWorld [(1, StepEngine.mkStep "s" (StepEngine.TObj 0) "/exp" [] [] None
                           false false false false)] [] [] [].

(** A step [s] caching its output in tmp, and its world. *)
Definition caching_step : StepEngine.stepr :=
  StepEngine.mkStep "s" (StepEngine.TObj 0) "/exp" ["input_1"] [] None true false false false.

Definition caching_world : StepEngine.world :=
  StepEngine.mkWorld [(1, caching_step)] [(0, StepEngine.mkTObj identity_operation VNone)] [] [].

(** Step [b] takes the output of step [a], which reads [input_1]. *)
Definition chain_world : StepEngine.world :=
  StepEngine.mkWorld
    [(1, StepEngine.mkStep "a" (StepEngine.TObj 0) "/exp" ["input_1"] [] None false false false false);
     (2, StepEngine.mkStep "b" (StepEngine.TObj 0) "/exp" [] [1] None false false false false)]
    [(0, StepEngine.mkTObj identity_operation VNone)] [] [].

(** A supervised transformer passing its input through. *)
Definition superv_identity : Millet.mstep :=
  Millet.MSuperv {|
    Transformers.superv_fit := fun _ _ => st_ret tt;
    Transformers.superv_transform := fun input_dict => st_ret input_dict |} VNone.

(** A step [s] that lists itself among its input steps (in src/steps/base.py
    the shared default [input_steps=[]] makes such a cycle easy to build). *)
Definition loop_world : StepEngine.world :=
  StepEngine.mkWorld [(1, StepEngine.mkStep "s" (StepEngine.TObj 0) "/exp" [] [1] None
                           false false false false)] [] [] [].

End Fixtures.

(** * Notions used to state the properties *)

(** The step names collected for [key] so far. *)
Definition names_of {V} (k2s : list (string * list V)) (key : string) : list V :=
  match dict_get k2s key with Some names => names | None => [] end.

(** The names of the inputs whose payload has the key [k], in order. *)
Definition owners (k : string) (l : list (string * payload)) : list string :=
  map fst (filter (fun np => Millet.mem k (dict_keys (snd np))) l).

(** [step_inputs[step_name][step_var]] for one pair of an adapter recipe. *)
Definition lookup_field (step_inputs : list (string * payload)) (nk : string * string)
  : result value :=
  p <- dict_lookup step_inputs (fst nk) ;; dict_lookup p (snd nk).

(** The class tests of [add_dataloader], [add_superv] and [add_unsuperv]. *)
Definition is_dataloader (s : Millet.mstep) : bool :=
  match s with Millet.MDataLoader _ => true | _ => false end.

Definition is_superv (s : Millet.mstep) : bool :=
  match s with Millet.MSuperv _ _ => true | _ => false end.

Definition is_unsuperv (s : Millet.mstep) : bool :=
  match s with Millet.MUnsuperv _ _ => true | _ => false end.

(** The edge [(src, n)] before one mapping entry is connected, as the
    connecting code sees it. *)
Definition keys_before (keys_of : Millet.edata -> option (list (string * string)))
    (g : Millet.graph) (e : string * string) : list (string * string) :=
  match Millet.edge_get (Millet.edges g) e with
  | Some d => match keys_of d with Some k => k | None => [] end
  | None => []
  end.

(** Every entry [(k, (src, sk))] of a mapping is recorded on the edge
    [(src, n)] of the pipeline, in the key dict [keys_of] of its data. *)
Definition mapping_recorded (keys_of : Millet.edata -> option (list (string * string)))
    (mp : Millet.multipipeline) (n : string) (entries : list (string * (string * string))) : Prop :=
  forall k src sk, In (k, (src, sk)) entries ->
  exists d ks, Millet.edge_get (Millet.edges (Millet._graph mp)) (src, n) = Some d /\
    keys_of d = Some ks /\ dict_get ks k = Some sk.

(** * Properties *)

Import Fixtures.
Local Open Scope string_scope.

(** ** Dict lemmas *)

Lemma dict_get_set_eq {V} (d : list (string * V)) k v :
  dict_get (dict_set d k v) k = Some v.
Proof.
  induction d as [|[k' v'] d IH]; simpl.
  - now rewrite String.eqb_refl.
  - destruct (String.eqb k k') eqn:E; simpl.
    + apply String.eqb_eq in E; subst. now rewrite String.eqb_refl.
    + rewrite E. exact IH.
Qed.

Lemma dict_get_set_neq {V} (d : list (string * V)) k k' v :
  k' <> k -> dict_get (dict_set d k v) k' = dict_get d k'.
Proof.
  intros Hne. induction d as [|[k0 v0] d IH]; simpl.
  - apply String.eqb_neq in Hne. now rewrite Hne.
  - destruct (String.eqb k k0) eqn:E; simpl.
    + apply String.eqb_eq in E; subst.
      apply String.eqb_neq in Hne. now rewrite Hne.
    + destruct (String.eqb k' k0); auto.
Qed.

(** ** Adapter *)

(** C6: a recipe that is a 2-tuple of strings [(input_name, key)] resolves
    to exactly [all_inputs[input_name][key]]; it raises [AdapterError] when
    [input_name] is not among the inputs, and [AdapterError] when [key] is
    not in that input's payload. *)
Theorem construct_pair_recipe (all_inputs : list (string * payload)) (input_name key : string) :
  (forall p v, dict_get all_inputs input_name = Some p -> dict_get p key = Some v ->
     Adapter._construct all_inputs (VTuple [VStr input_name; VStr key]) = Ok v) /\
  (dict_get all_inputs input_name = None ->
     exists msg, Adapter._construct all_inputs (VTuple [VStr input_name; VStr key])
                 = Err (AdapterError msg)) /\
  (forall p, dict_get all_inputs input_name = Some p -> dict_get p key = None ->
     exists msg, Adapter._construct all_inputs (VTuple [VStr input_name; VStr key])
                 = Err (AdapterError msg)).
Proof.
  simpl. unfold Adapter._construct_element.
  split; [|split].
  - intros p v Hp Hv. now rewrite Hp, Hv.
  - intros Hn. rewrite Hn. eexists; reflexivity.
  - intros p Hp Hk. rewrite Hp, Hk. eexists; reflexivity.
Qed.

Lemma construct_pair_recipe_witness :
  Adapter._construct [("input_1", [("features", VInt 5)])]
    (VTuple [VStr "input_1"; VStr "features"]) = Ok (VInt 5).
Proof.
  apply (proj1 (construct_pair_recipe [("input_1", [("features", VInt 5)])] "input_1" "features")
           [("features", VInt 5)] (VInt 5)); reflexivity.
Defined.

(** The single-item recipe of the spec: [{'X': ('input_1', 'features')}]
    against [{'input_1': {'features': F}}] gives [{'X': F}]. *)
Example adapter_single_item_recipe :
  Adapter.adapt [("X", VTuple [VStr "input_1"; VStr "features"])]
    [("input_1", [("features", VInt 5)])] = Ok [("X", VInt 5)].
Proof. reflexivity. Qed.

(** ** Merging the inputs of a step without an adapter *)

Lemma string_append_assoc (a b c : string) : (a ++ b ++ c) = ((a ++ b) ++ c).
Proof. induction a; simpl; congruence. Qed.

Lemma string_append_empty_r (a : string) : (a ++ "") = a.
Proof. induction a; simpl; congruence. Qed.

(** An element of a joined list occurs in the joined string. *)
Lemma concat_infix (sep x : string) (l : list string) :
  In x l -> exists pre post, String.concat sep l = (pre ++ x ++ post).
Proof.
  induction l as [|a l IH]; simpl; [tauto|].
  intros [<- | Hin].
  - destruct l as [|b l].
    + exists "", "". simpl. now rewrite string_append_empty_r.
    + exists "", (sep ++ String.concat sep (b :: l)). reflexivity.
  - destruct (IH Hin) as [pre [post Heq]].
    destruct l as [|b l]; [destruct Hin|].
    exists (a ++ sep ++ pre), post. rewrite Heq.
    rewrite <- !string_append_assoc. reflexivity.
Qed.

Lemma mem_In (x : string) l : Millet.mem x l = true <-> In x l.
Proof.
  unfold Millet.mem. rewrite existsb_exists. split.
  - intros [y [Hy E]]. apply String.eqb_eq in E. now subst.
  - intros H. exists x. split; [exact H | apply String.eqb_refl].
Qed.

Lemma dict_get_In {V} (d : list (string * V)) k v :
  dict_get d k = Some v -> In (k, v) d.
Proof.
  induction d as [|[k' v'] d IH]; simpl; [discriminate|].
  destruct (String.eqb k k') eqn:E.
  - intros [= <-]. apply String.eqb_eq in E. subst. now left.
  - intros H. right. now apply IH.
Qed.

Lemma add_step_keys_get (k2s : list (string * list string)) (n : string) (p : payload) k :
  NoDup (dict_keys p) ->
  dict_get (Steppy.add_step_keys k2s n p) k =
  if Millet.mem k (dict_keys p) then Some (names_of k2s k ++ [n])%list else dict_get k2s k.
Proof.
  unfold Steppy.add_step_keys. generalize (dict_keys p) as keys. intros keys.
  revert k2s. induction keys as [|key keys IH]; intros k2s Hnd; simpl; [reflexivity|].
  inversion Hnd as [|? ? Hnotin Hnd']; subst.
  rewrite IH by exact Hnd'.
  destruct (String.eqb k key) eqn:E; simpl.
  - apply String.eqb_eq in E; subst.
    assert (Millet.mem key keys = false) as ->.
    { destruct (Millet.mem key keys) eqn:M; [apply mem_In in M; contradiction | reflexivity]. }
    rewrite dict_get_set_eq. unfold names_of.
    destruct (dict_get k2s key); reflexivity.
  - assert (k <> key) as Hne by (apply String.eqb_neq; exact E).
    unfold names_of. rewrite !dict_get_set_neq by exact Hne. reflexivity.
Qed.

Lemma key_to_step_names_get (l : list (string * payload)) (u : payload) k2s k :
  (forall np, In np l -> NoDup (dict_keys (snd np))) ->
  names_of (snd (fold_left (fun acc np =>
      (dict_update (fst acc) (snd np), Steppy.add_step_keys (snd acc) (fst np) (snd np)))
    l (u, k2s))) k = (names_of k2s k ++ owners k l)%list.
Proof.
  revert u k2s. induction l as [|[n p] l IH]; intros u k2s Hnd; simpl.
  - now rewrite app_nil_r.
  - rewrite IH by (intros np Hin; apply Hnd; now right).
    unfold owners at 2. simpl.
    assert (names_of (Steppy.add_step_keys k2s n p) k =
            if Millet.mem k (dict_keys p) then (names_of k2s k ++ [n])%list else names_of k2s k) as ->.
    { unfold names_of at 1. rewrite add_step_keys_get by (apply (Hnd (n, p)); now left).
      destruct (Millet.mem k (dict_keys p)); reflexivity. }
    destruct (Millet.mem k (dict_keys p)); simpl; [rewrite <- app_assoc|]; reflexivity.
Qed.

Lemma two_members_length (a b : string) l : In a l -> In b l -> a <> b -> 1 < length l.
Proof.
  destruct l as [|x [|y l]]; simpl; try tauto.
  - intros [<-|[]] [<-|[]]; tauto.
  - intros; lia.
Qed.

Lemma In_owners k n p l : In (n, p) l -> Millet.mem k (dict_keys p) = true -> In n (owners k l).
Proof.
  intros Hin Hm. unfold owners. apply in_map_iff. exists (n, p). split; [reflexivity|].
  apply filter_In. now split.
Qed.

(** [Step._unpack] of src/steppy/base.py: when two different inputs
    have the same key in their payloads, it raises [StepsError] whose
    message holds the line for that key listing both input names. *)
Lemma steppy_unpack_collision (step_inputs : list (string * payload)) k n1 p1 n2 p2 :
  (forall np, In np step_inputs -> NoDup (dict_keys (snd np))) ->
  In (n1, p1) step_inputs -> In (n2, p2) step_inputs -> n1 <> n2 ->
  Millet.mem k (dict_keys p1) = true -> Millet.mem k (dict_keys p2) = true ->
  exists msg names pre post,
    Steppy._unpack step_inputs = Err (StepsError msg) /\
    msg = (pre ++ Steppy.repeated_entry (k, names) ++ post) /\
    In n1 names /\ In n2 names.
Proof.
  intros Hnd H1 H2 Hne M1 M2.
  pose proof (key_to_step_names_get step_inputs [] [] k Hnd) as Hk.
  unfold Steppy._unpack.
  match goal with |- context [fold_left ?f step_inputs ?a] =>
    destruct (fold_left f step_inputs a) as [unpacked k2s] eqn:Hf end.
  assert (names_of k2s k = owners k step_inputs) as Hk'.
  { change k2s with (snd (unpacked, k2s)). rewrite <- Hf. exact Hk. }
  clear Hk. rename Hk' into Hk.
  assert (In n1 (owners k step_inputs)) as O1 by (eapply In_owners; eauto).
  assert (In n2 (owners k step_inputs)) as O2 by (eapply In_owners; eauto).
  unfold names_of in Hk.
  destruct (dict_get k2s k) as [names|] eqn:Hget; [|subst; rewrite <- Hk in O1; destruct O1].
  simpl in Hk. subst names.
  assert (In (k, owners k step_inputs)
            (filter (fun kn => Nat.ltb 1 (length (snd kn))) k2s)) as Hrep.
  { apply filter_In. split; [now apply dict_get_In|].
    apply Nat.ltb_lt. exact (two_members_length n1 n2 _ O1 O2 Hne). }
  destruct (filter _ k2s) as [|r rs] eqn:Hfl; [destruct Hrep|].
  destruct (concat_infix Steppy.unpack_header (Steppy.repeated_entry (k, owners k step_inputs))
              (map Steppy.repeated_entry (r :: rs))) as [pre [post Heq]].
  { apply in_map. exact Hrep. }
  exists (String.concat Steppy.unpack_header (map Steppy.repeated_entry (r :: rs))),
         (owners k step_inputs), pre, post.
  repeat split; auto.
Qed.

(** C2: without an adapter, [Step.unpack] of src/steps/base.py merges the
    inputs of the test [test_inputs_with_conflicting_names_require_adapter]
    (both carry ['labels']) without error, the later input's value
    winning, and so does the whole step; the test expects [StepsError],
    which [Step._unpack] of src/steppy/base.py raises on the same inputs. *)
Theorem steps_unpack_ignores_collision :
  Steps.unpack [("input_1", [("features", VInt 1); ("labels", VInt 2)]);
                ("input_3", [("images", VInt 3); ("labels", VInt 4)])]
    = Ok [("features", VInt 1); ("labels", VInt 4); ("images", VInt 3)] /\
  fst (StepEngine.fit_transform (StepEngine.steps_merge py_builtins) 10 1
         [("input_1", [("features", VInt 1); ("labels", VInt 2)]);
          ("input_3", [("images", VInt 3); ("labels", VInt 4)])]
         (StepEngine.mkWorld
            [(1, StepEngine.mkStep "conflict" (StepEngine.TObj 0) "/cache" ["input_1"; "input_3"]
                   [] None false false false false)]
            [(0, StepEngine.mkTObj identity_operation VNone)] [] []))
    = Ok [("features", VInt 1); ("labels", VInt 4); ("images", VInt 3)] /\
  Steppy._unpack [("input_1", [("features", VInt 1); ("labels", VInt 2)]);
                  ("input_3", [("images", VInt 3); ("labels", VInt 4)])]
    = Err (StepsError "  'labels' present in steps ['input_1', 'input_3']").
Proof. repeat split; vm_compute; reflexivity. Qed.

(** ** Adapter recipes of steps/base.py *)

Lemma raw_inputs_of_pairs (step_inputs : list (string * payload)) pairs :
  (forall l, Steps.raw_inputs_of step_inputs (VList l) = Steps.raw_inputs_of step_inputs (VTuple l)) /\
  Steps.raw_inputs_of step_inputs (VList (map pair_value pairs))
    = map_res (lookup_field step_inputs) pairs.
Proof.
  split; [reflexivity|].
  unfold Steps.raw_inputs_of. simpl.
  induction pairs as [|[n k] pairs IH]; simpl; [reflexivity|].
  unfold lookup_field. simpl.
  destruct (dict_lookup step_inputs n) as [p|e]; simpl; [|reflexivity].
  destruct (dict_lookup p k) as [v|e]; simpl; [|reflexivity].
  rewrite IH. reflexivity.
Qed.

(** An entry [(sequence_of_pairs, func)] of a steps adapter resolves to
    [func] applied to the list of the referenced fields in sequence order,
    the first missing source or field raising [KeyError]; a list of three
    or more pairs without a function raises
    [ValueError('wrong mapping specified')]. *)
Theorem adapt_entry_recipe (py_call : nat -> value -> result value)
    (step_inputs : list (string * payload)) :
  (forall pairs f,
     Steps.adapt_entry py_call step_inputs (VTuple [VList (map pair_value pairs); VFun f])
     = (vs <- map_res (lookup_field step_inputs) pairs ;; py_call f (VList vs))) /\
  (forall pairs, 3 <= length pairs ->
     Steps.adapt_entry py_call step_inputs (VList (map pair_value pairs))
       = Err (ValueError "wrong mapping specified")).
Proof.
  split.
  - intros pairs f. simpl.
    destruct (raw_inputs_of_pairs step_inputs pairs) as [_ H].
    rewrite H. destruct (map_res (lookup_field step_inputs) pairs); reflexivity.
  - intros [|a [|b [|c pairs]]] Hlen; simpl in Hlen; try lia. reflexivity.
Qed.

Lemma adapt_entry_recipe_witness :
  3 <= length [("a", "v"); ("b", "v"); ("a", "v")] /\
  Steps.adapt_entry py_builtins [("a", [("v", VInt 2)]); ("b", [("v", VInt 3)])]
    (VList (map pair_value [("a", "v"); ("b", "v"); ("a", "v")]))
  = Err (ValueError "wrong mapping specified").
Proof.
  split; [simpl; lia|].
  exact (proj2 (adapt_entry_recipe py_builtins
                  [("a", [("v", VInt 2)]); ("b", [("v", VInt 3)])])
           [("a", "v"); ("b", "v"); ("a", "v")] ltac:(simpl; lia)).
Defined.

(** C7 (code bug): the adapter [{'X': [('a','v'), ('b','v')]}] of a
    steps [Step], with no function, does not resolve to the first field's
    value [2] as the docstring of [adapter] (take_first_inputs when no
    function is given) and [test_adapter_recipe_with_list] expect: having
    two elements the entry is unpacked as [(step_mapping, func)], and
    iterating over [('a','v')] then unpacks the one-character string ['a']
    into two names, which raises [ValueError]. The one-pair list
    [[('a','v')]] is resolved by the default reduction. *)
Lemma adapt_entry_default_two_pairs :
  Steps.adapt py_builtins [("X", VList [pair_value ("a", "v"); pair_value ("b", "v")])]
    [("a", [("v", VInt 2)]); ("b", [("v", VInt 3)])]
  = Err (ValueError "not enough values to unpack (expected 2, got 1)") /\
  Steps.adapt py_builtins [("X", VList [pair_value ("a", "v")])]
    [("a", [("v", VInt 2)]); ("b", [("v", VInt 3)])]
  = Ok [("X", VInt 2)].
Proof. split; vm_compute; reflexivity. Qed.

(** The recipe of the spec with [sum]. *)
Example adapt_sum_recipe :
  Steps.adapt py_builtins
    [("X", VTuple [VList [pair_value ("a", "v"); pair_value ("b", "v")]; VFun 0])]
    [("a", [("v", VInt 2)]); ("b", [("v", VInt 3)])]
  = Ok [("X", VInt 5)].
Proof. vm_compute. reflexivity. Qed.

(** ** fit_transform of the transformers *)

(** C8: for supervised and unsupervised millet transformers and for
    steppy's [BaseTransformer], [fit_transform] on a state is [fit] on the
    same inputs followed by [transform] on the same inputs in the state
    [fit] left, returning what [transform] returns; an exception raised
    by [fit] is raised without calling [transform]. *)
Theorem fit_transform_is_fit_then_transform {S : Type} :
  (forall (t : Transformers.superv S) input_dict superv_dict s,
     Transformers.superv_fit_transform t input_dict superv_dict s =
     match Transformers.superv_fit S t input_dict superv_dict s with
     | (Ok _, s') => Transformers.superv_transform S t input_dict s'
     | (Err e, s') => (Err e, s')
     end) /\
  (forall (t : Transformers.unsuperv S) input_dict s,
     Transformers.unsuperv_fit_transform t input_dict s =
     match Transformers.unsuperv_fit S t input_dict s with
     | (Ok _, s') => Transformers.unsuperv_transform S t input_dict s'
     | (Err e, s') => (Err e, s')
     end) /\
  (forall (t : Transformers.base S) kwargs s,
     Transformers.base_fit_transform t kwargs s =
     match Transformers.base_fit S t kwargs s with
     | (Ok _, s') => Transformers.base_transform S t kwargs s'
     | (Err e, s') => (Err e, s')
     end).
Proof. repeat split; intros; reflexivity. Qed.

(** ** [MultiPipeline.run] *)

Lemma clear_all_outputs_fold (l : list (string * Millet.mnode)) (mp : Millet.multipipeline) :
  let mp' := fold_left (fun mp nn =>
      let mp := Millet.print mp ("[MultiPipeline] Clearing output of node_name: " ++ fst nn) in
      Millet.set_node mp (fst nn) (Millet.mkNode (Millet.step (snd nn)) None)) l mp in
  Millet.edges (Millet._graph mp') = Millet.edges (Millet._graph mp) /\
  Millet.stdout mp' =
    (Millet.stdout mp ++
     map (fun nn => "[MultiPipeline] Clearing output of node_name: " ++ fst nn)%string l)%list /\
  (forall n, In n (map fst l) ->
     exists s, dict_get (Millet.nodes (Millet._graph mp')) n = Some (Millet.mkNode s None)) /\
  (forall n, ~ In n (map fst l) ->
     dict_get (Millet.nodes (Millet._graph mp')) n = dict_get (Millet.nodes (Millet._graph mp)) n).
Proof.
  revert mp. induction l as [|[k nd] l IH]; intros mp; simpl.
  - repeat split; [now rewrite app_nil_r | tauto].
  - destruct (IH (Millet.set_node
                    (Millet.print mp ("[MultiPipeline] Clearing output of node_name: " ++ k)) k
                    (Millet.mkNode (Millet.step nd) None))) as [He [Ho [Hin Hout]]].
    simpl in He, Ho, Hin, Hout.
    repeat split.
    + exact He.
    + rewrite Ho. rewrite <- app_assoc. reflexivity.
    + intros n [-> | Hn].
      * destruct (in_dec String.string_dec n (map fst l)) as [Hl|Hl]; [now apply Hin|].
        exists (Millet.step nd). rewrite (Hout n Hl). apply dict_get_set_eq.
      * now apply Hin.
    + intros n Hn. rewrite Hout by tauto. apply dict_get_set_neq. intros ->. tauto.
Qed.

(** C10: [run] with no requested output and no fit target raises the
    [TypeError] of [reduce(set.union, [])] on every pipeline and every
    input: no node runs and no result is returned, but every node of the
    graph has already had its output cleared (its [step] kept), and the
    only lines printed are those of [clear_all_outputs], one per node. *)
Theorem run_empty_request_raises (mp : Millet.multipipeline) (input_info : payload) :
  Millet.run mp input_info [] [] = (Err TypeError, Millet.clear_all_outputs mp) /\
  (forall n, In n (map fst (Millet.nodes (Millet._graph mp))) ->
     exists s, dict_get (Millet.nodes (Millet._graph (Millet.clear_all_outputs mp))) n
               = Some (Millet.mkNode s None)) /\
  Millet.edges (Millet._graph (Millet.clear_all_outputs mp)) = Millet.edges (Millet._graph mp) /\
  Millet.stdout (Millet.clear_all_outputs mp) =
    (Millet.stdout mp ++
     map (fun n => "[MultiPipeline] Clearing output of node_name: " ++ n)%string
         (map fst (Millet.nodes (Millet._graph mp))))%list.
Proof.
  destruct (clear_all_outputs_fold (Millet.nodes (Millet._graph mp)) mp) as [He [Ho [Hin _]]].
  split; [reflexivity|]. split; [exact Hin|]. split; [exact He|].
  unfold Millet.clear_all_outputs. rewrite map_map. exact Ho.
Qed.

Lemma min_name_In (l : list string) v : Millet.min_name l = Some v -> In v l.
Proof.
  induction l as [|x l IH]; simpl; [discriminate|].
  destruct (Millet.min_name l) as [y|].
  - destruct (String.ltb y x); intros [= <-]; [right; now apply IH | now left].
  - intros [= <-]. now left.
Qed.

(** Every node of [l] comes after its predecessors in the subgraph. *)
Definition preds_first (g : Millet.graph) (sub l : list string) : Prop :=
  forall i v, nth_error l i = Some v ->
  forall u, In u (Millet.sub_preds g sub v) -> In u (firstn i l).

Lemma preds_first_snoc g sub done v :
  preds_first g sub done ->
  (forall u, In u (Millet.sub_preds g sub v) -> In u done) ->
  preds_first g sub (done ++ [v]).
Proof.
  intros Hd Hv i w Hi u Hu.
  destruct (Nat.lt_ge_cases i (length done)) as [Hlt|Hge].
  - rewrite nth_error_app1 in Hi by exact Hlt.
    rewrite firstn_app, (proj2 (Nat.sub_0_le i (length done))) by lia.
    simpl. rewrite app_nil_r. eapply Hd; eauto.
  - rewrite nth_error_app2 in Hi by exact Hge.
    destruct (i - length done) as [|k] eqn:Hk; simpl in Hi; [|destruct k; discriminate].
    injection Hi as <-. assert (i = length done) as -> by lia.
    rewrite firstn_app, Nat.sub_diag, firstn_all. simpl. rewrite app_nil_r. now apply Hv.
Qed.

(** [lexicographical_topological_sort] as modelled: the order it yields
    extends the nodes already yielded with nodes of the subgraph, has no
    repetition, and puts every node after its predecessors in the
    subgraph. *)
Lemma lex_topo_sound fuel g sub done :
  NoDup done -> preds_first g sub done ->
  NoDup (fst (Millet.lex_topo fuel g sub done)) /\
  preds_first g sub (fst (Millet.lex_topo fuel g sub done)) /\
  exists ext, fst (Millet.lex_topo fuel g sub done) = (done ++ ext)%list /\
              forall v, In v ext -> In v sub.
Proof.
  revert done. induction fuel as [|fuel IH]; intros done Hnd Hpf; simpl.
  - repeat split; auto. exists []. split; [now rewrite app_nil_r | simpl; tauto].
  - destruct (Millet.min_name (Millet.available g sub done)) as [v|] eqn:Hmin;
      [|repeat split; auto; exists []; split; [now rewrite app_nil_r | simpl; tauto]].
    apply min_name_In in Hmin. unfold Millet.available in Hmin.
    apply filter_In in Hmin as [Hsub Hav].
    apply andb_true_iff in Hav as [Hnot Hall].
    assert (~ In v done) as Hvd.
    { intros Hv. apply (proj2 (mem_In v done)) in Hv. rewrite Hv in Hnot. discriminate. }
    assert (forall u, In u (Millet.sub_preds g sub v) -> In u done) as Hpv.
    { intros u Hu. rewrite forallb_forall in Hall. apply mem_In. now apply Hall. }
    destruct (IH (done ++ [v])%list) as [H1 [H2 [ext [H3 H4]]]].
    + apply NoDup_app; [exact Hnd | constructor; [tauto | constructor] |].
      intros x Hx [<- | []]. tauto.
    + now apply preds_first_snoc.
    + repeat split; auto. exists (v :: ext). split.
      * rewrite H3, <- app_assoc. reflexivity.
      * intros w [<- | Hw]; auto.
Qed.

(** The diamond of the spec, requesting [D]: the nodes run in the order
    A, B, C, D, each once, and [D]'s payload is returned. *)
Example diamond_run_order :
  Millet.run diamond [("X", VInt 7)] ["D"] [] =
  (Ok [("D", Some [("X", VInt 7); ("Y", VInt 7)])],
   snd (Millet.run diamond [("X", VInt 7)] ["D"] [])) /\
  Millet.stdout (snd (Millet.run diamond [("X", VInt 7)] ["D"] [])) =
    (Millet.stdout (Millet.clear_all_outputs diamond) ++
     ["[MultiPipeline] Running node A"; "[MultiPipeline] Running node B";
      "[MultiPipeline] Running node C"; "[MultiPipeline] Running node D"])%list.
Proof. split; vm_compute; reflexivity. Qed.

(** C1: [run] called with its default arguments [()] for
    [output_node_names] and [fit_node_names], here on the diamond
    pipeline of the spec, does not return the (empty) mapping of
    requested outputs: [reduce(set.union, [])] has no initial value and
    raises [TypeError]. *)
Theorem run_default_arguments_raise :
  fst (Millet.run diamond [("X", VInt 7)] [] []) = Err TypeError.
Proof. vm_compute. reflexivity. Qed.

(** ** Registering nodes in a [MultiPipeline] *)

Lemma dict_get_app_Some {V} (d e : list (string * V)) k v :
  dict_get d k = Some v -> dict_get (d ++ e) k = Some v.
Proof.
  induction d as [|[k' v'] d IH]; simpl; [discriminate|].
  destruct (String.eqb k k'); auto.
Qed.

Lemma dict_get_app_None {V} (d e : list (string * V)) k :
  dict_get d k = None -> dict_get (d ++ e) k = dict_get e k.
Proof.
  induction d as [|[k' v'] d IH]; simpl; [reflexivity|].
  destruct (String.eqb k k'); [discriminate | auto].
Qed.

(** Wiring an edge keeps the attributes of every node already there. *)
Lemma connect_edge_keeps_node (g : Millet.graph) u v k nd :
  dict_get (Millet.nodes g) k = Some nd ->
  dict_get (Millet.nodes (if Millet.has_edge g u v then g else Millet.add_edge g u v)) k = Some nd.
Proof.
  intros H. destruct (Millet.has_edge g u v); [exact H|].
  unfold Millet.add_edge. simpl.
  destruct (Millet.has_node g u); simpl;
    match goal with |- context [Millet.has_node ?g' v] => destruct (Millet.has_node g' v) end;
    simpl; repeat apply dict_get_app_Some; exact H.
Qed.

Lemma connect_input_keeps_node mp node_name m k nd :
  dict_get (Millet.nodes (Millet._graph mp)) k = Some nd ->
  dict_get (Millet.nodes (Millet._graph (Millet._connect_input_mapping mp node_name m))) k = Some nd.
Proof.
  unfold Millet._connect_input_mapping. revert mp.
  induction m as [|[nk [src sk]] m IH]; intros mp H; simpl; [exact H|].
  apply IH. simpl. now apply connect_edge_keeps_node.
Qed.

Lemma connect_superv_keeps_node mp node_name m k nd :
  dict_get (Millet.nodes (Millet._graph mp)) k = Some nd ->
  dict_get (Millet.nodes (Millet._graph (Millet._connect_superv_mapping mp node_name m))) k = Some nd.
Proof.
  unfold Millet._connect_superv_mapping. revert mp.
  induction m as [|[nk [src sk]] m IH]; intros mp H; simpl; [exact H|].
  apply IH. simpl. now apply connect_edge_keeps_node.
Qed.

Lemma check_add_step_fresh mp s n :
  Millet.has_node (Millet._graph mp) n = false ->
  Millet._check_add_step mp s n =
    (Ok tt, Millet.mkMP (Millet.mkGraph (Millet.nodes (Millet._graph mp) ++
                                         [(n, Millet.mkNode (Some s) None)])
                                        (Millet.edges (Millet._graph mp))) (Millet.stdout mp)) /\
  dict_get (Millet.nodes (Millet._graph mp) ++ [(n, Millet.mkNode (Some s) None)]) n
    = Some (Millet.mkNode (Some s) None).
Proof.
  unfold Millet._check_add_step. intros H. rewrite H. split; [reflexivity|].
  unfold Millet.has_node in H.
  destruct (dict_get (Millet.nodes (Millet._graph mp)) n) eqn:E; [discriminate|].
  rewrite dict_get_app_None by exact E. simpl. now rewrite String.eqb_refl.
Qed.

(** C5 (amended): in a [MultiPipeline], registering a data loader, a
    supervised or an unsupervised transformer under a name that is
    already a node of the graph raises [MilletNameException] and leaves
    the pipeline as it was; under a fresh name it succeeds, the new node
    holding the step with no output. steppy's [Step] constructor compares
    the name with no other step's name: it raises the same exception, or
    succeeds, whatever the name. *)
Theorem register_node_name (mp : Millet.multipipeline) (n : string) :
  (Millet.has_node (Millet._graph mp) n = true ->
     (forall f, Millet.add_dataloader mp (Millet.MDataLoader f) n = (Err MilletNameException, mp)) /\
     (forall t st im sm,
        Millet.add_superv mp (Millet.MSuperv t st) n im sm = (Err MilletNameException, mp)) /\
     (forall t st im,
        Millet.add_unsuperv mp (Millet.MUnsuperv t st) n im = (Err MilletNameException, mp))) /\
  (Millet.has_node (Millet._graph mp) n = false ->
     (forall f, exists mp', Millet.add_dataloader mp (Millet.MDataLoader f) n = (Ok tt, mp') /\
        dict_get (Millet.nodes (Millet._graph mp')) n
          = Some (Millet.mkNode (Some (Millet.MDataLoader f)) None)) /\
     (forall t st im sm, exists mp',
        Millet.add_superv mp (Millet.MSuperv t st) n im sm = (Ok tt, mp') /\
        dict_get (Millet.nodes (Millet._graph mp')) n
          = Some (Millet.mkNode (Some (Millet.MSuperv t st)) None)) /\
     (forall t st im, exists mp',
        Millet.add_unsuperv mp (Millet.MUnsuperv t st) n im = (Ok tt, mp') /\
        dict_get (Millet.nodes (Millet._graph mp')) n
          = Some (Millet.mkNode (Some (Millet.MUnsuperv t st)) None))) /\
  (forall w n1 n2 t ed idt ist ad c sv l f e,
     StepEngine.step_init w n1 t ed idt ist ad c sv l f = Err e <->
     StepEngine.step_init w n2 t ed idt ist ad c sv l f = Err e).
Proof.
  split; [|split; [|intros w n1 n2 t ed idt ist ad c sv l f e; destruct ed; simpl; tauto]].
  - intros H. unfold Millet.add_dataloader, Millet.add_superv, Millet.add_unsuperv,
      Millet._check_add_step. rewrite H. repeat split.
  - intros H. split; [|split].
    + intros f. destruct (check_add_step_fresh mp (Millet.MDataLoader f) n H) as [E G].
      eexists. split; [unfold Millet.add_dataloader; rewrite E; reflexivity | exact G].
    + intros t st im sm. destruct (check_add_step_fresh mp (Millet.MSuperv t st) n H) as [E G].
      eexists. split; [unfold Millet.add_superv; rewrite E; reflexivity|].
      apply connect_superv_keeps_node, connect_input_keeps_node. exact G.
    + intros t st im. destruct (check_add_step_fresh mp (Millet.MUnsuperv t st) n H) as [E G].
      eexists. split; [unfold Millet.add_unsuperv; rewrite E; reflexivity|].
      apply connect_input_keeps_node. exact G.
Qed.

Lemma register_node_name_witness :
  Millet.has_node (Millet._graph diamond) "A" = true /\
  Millet.add_dataloader diamond simple_dataloader "A" = (Err MilletNameException, diamond).
Proof.
  split; [vm_compute; reflexivity|].
  exact (proj1 (proj1 (register_node_name diamond "A") ltac:(vm_compute; reflexivity))
           (fun input_info => x <- dict_lookup input_info "X" ;; Ok [("X", x)])).
Defined.

(** C5 (counterexample): registering a steppy [Step] under the fresh name
    [t] (the only other step is named [s]) does not succeed:
    [Step.__init__] calls [_prepare_experiment_directories], which reads
    [self.name] before [self.name = name] runs, and raises
    [AttributeError]. *)
Lemma step_init_fresh_name_raises :
  map (fun p => StepEngine.name (snd p)) (StepEngine.steps one_step_world) = ["s"] /\
  StepEngine.step_init one_step_world "t" (StepEngine.TObj 0) (Some "/exp") None
    None None false false false false = Err AttributeError.
Proof. split; vm_compute; reflexivity. Qed.

Lemma run_nodes_app info fits l1 l2 mp :
  Millet.run_nodes info fits (l1 ++ l2) mp =
  match Millet.run_nodes info fits l1 mp with
  | (Ok _, mp') => Millet.run_nodes info fits l2 mp'
  | (Err e, mp') => (Err e, mp')
  end.
Proof.
  revert mp. induction l1 as [|n l1 IH]; intros mp; simpl; [reflexivity|].
  destruct (Millet.run_node info fits mp n) as [[u|e] mp1]; [apply IH | reflexivity].
Qed.

(** C9: the registration methods refuse an object of the wrong class
    with [MilletTypeException], leaving the pipeline as it was; and when
    [run] reaches, in its order, a node whose step is of none of the
    three classes, it raises [MilletTypeException]. *)
Theorem node_class_checked :
  (forall mp s n, is_dataloader s = false ->
     Millet.add_dataloader mp s n = (Err MilletTypeException, mp)) /\
  (forall mp s n im sm, is_superv s = false ->
     Millet.add_superv mp s n im sm = (Err MilletTypeException, mp)) /\
  (forall mp s n im, is_unsuperv s = false ->
     Millet.add_unsuperv mp s n im = (Err MilletTypeException, mp)) /\
  (forall mp info outs fits pre n post cyclic mp1,
     Millet.run_plan (Millet._graph (Millet.clear_all_outputs mp)) outs fits
       = Ok ((pre ++ n :: post)%list, cyclic) ->
     Millet.run_nodes info fits pre (Millet.clear_all_outputs mp) = (Ok tt, mp1) ->
     Millet.get_step mp1 n = Some Millet.MOther ->
     fst (Millet.run mp info outs fits) = Err MilletTypeException).
Proof.
  split; [|split; [|split]].
  - intros mp [] n H; simpl in H; try discriminate; reflexivity.
  - intros mp [] n im sm H; simpl in H; try discriminate; reflexivity.
  - intros mp [] n im H; simpl in H; try discriminate; reflexivity.
  - intros mp info outs fits pre n post cyclic mp1 Hplan Hpre Hstep.
    unfold Millet.run. rewrite Hplan, run_nodes_app, Hpre. simpl.
    unfold Millet.get_step in Hstep.
    destruct (dict_get (Millet.nodes (Millet._graph mp1)) n) as [nd|] eqn:Hn; [|discriminate].
    unfold Millet.run_node. simpl. rewrite Hn, Hstep. reflexivity.
Qed.

Lemma node_class_checked_witness :
  is_dataloader simple_unsuperv = false /\
  Millet.add_dataloader diamond simple_unsuperv "E" = (Err MilletTypeException, diamond) /\
  fst (Millet.run other_pipeline [] ["A"] []) = Err MilletTypeException.
Proof.
  split; [reflexivity|]. split.
  - exact (proj1 node_class_checked diamond simple_unsuperv "E" eq_refl).
  - exact (proj2 (proj2 (proj2 node_class_checked)) other_pipeline [] ["A"] [] [] "A" [] false
             (Millet.clear_all_outputs other_pipeline) ltac:(vm_compute; reflexivity)
             ltac:(vm_compute; reflexivity) ltac:(vm_compute; reflexivity)).
Defined.

(** A node created only by edge wiring (its source was never registered)
    has no [step] attribute: [run] raises [KeyError] when it reaches it. *)
Example run_unregistered_source :
  fst (Millet.run (snd (Millet.add_unsuperv Millet.empty_multipipeline simple_unsuperv "B"
                          [("X", ("A", "X"))])) [("X", VInt 1)] ["B"] []) = Err KeyError.
Proof. vm_compute. reflexivity. Qed.

(** ** The cache of step outputs and the persisted transformers *)

Lemma nget_nset_eq {V} (d : list (nat * V)) k v : nget (nset d k v) k = Some v.
Proof.
  induction d as [|[k' v'] d IH]; simpl; [now rewrite Nat.eqb_refl|].
  destruct (Nat.eqb k k') eqn:E; simpl; [now rewrite E | now rewrite E].
Qed.

Lemma store_outputs_trace st out w :
  StepEngine.trace (StepEngine.store_outputs st out w) = StepEngine.trace w.
Proof.
  unfold StepEngine.store_outputs.
  destruct (StepEngine.cache_output st), (StepEngine.save_output st); reflexivity.
Qed.

(** C3 (amended): in [fit_transform] an existing cached output ([tmp])
    is loaded and returned, with nothing run and nothing changed, exactly
    when force fitting is off; with force fitting on, the step executes
    (inputs gathered, then [_cached_fit_transform]). In [transform] an
    existing cached output is loaded and returned whatever
    [force_fitting] says. *)
Theorem step_cached_output_fast_path
    (merge : StepEngine.stepr -> list (string * payload) -> result payload)
    fuel sid data w st :
  nget (StepEngine.steps w) sid = Some st ->
  (StepEngine.output_is_cached w st = true -> StepEngine.force_fitting st = false ->
     StepEngine.fit_transform merge (S fuel) sid data w
       = (StepEngine._load_output w (StepEngine.exp_dir_tmp_step st), w)) /\
  (StepEngine.output_is_cached w st = true ->
     StepEngine.transform merge (S fuel) sid data w
       = (StepEngine._load_output w (StepEngine.exp_dir_tmp_step st), w)) /\
  (StepEngine.force_fitting st = true ->
     StepEngine.fit_transform merge (S fuel) sid data w
       = StepEngine.execute merge (fun i => StepEngine.fit_transform merge fuel i data)
           StepEngine._cached_fit_transform sid st data w).
Proof.
  intros Hst. split; [|split].
  - intros Hc Hf. simpl. rewrite Hst, Hc, Hf. reflexivity.
  - intros Hc. simpl. rewrite Hst, Hc. reflexivity.
  - intros Hf. simpl. rewrite Hst, Hf, !andb_false_r. reflexivity.
Qed.

Lemma step_cached_output_fast_path_witness :
  nget (StepEngine.steps cached_world) 1 = Some forced_step /\
  StepEngine.transform StepEngine.steppy_merge 10 1 data_1 cached_world
    = (StepEngine._load_output cached_world (StepEngine.exp_dir_tmp_step forced_step),
       cached_world).
Proof.
  split; [reflexivity|].
  exact (proj1 (proj2 (step_cached_output_fast_path StepEngine.steppy_merge 9 1 data_1
                         cached_world forced_step eq_refl)) eq_refl).
Defined.

(** C3 (counterexample): the step [s] has [force_fitting=True] and a
    cached output in [tmp]; [transform] loads and returns that output and
    runs nothing. *)
Lemma transform_ignores_force_fitting :
  StepEngine.force_fitting forced_step = true /\
  StepEngine.transform StepEngine.steppy_merge 10 1 data_1 cached_world
    = (Ok [("cached", VInt 1)], cached_world).
Proof. split; vm_compute; reflexivity. Qed.

(** With force fitting, [fit_transform] of the same step runs and
    refits the transformer. *)
Example fit_transform_force_refits :
  StepEngine.trace (snd (StepEngine.fit_transform StepEngine.steppy_merge 10 1 data_1 cached_world))
    = [StepEngine.EvFitTransform "s"; StepEngine.EvSave "s"].
Proof. vm_compute. reflexivity. Qed.




(** ** Witnesses of the supporting lemmas *)

Lemma steppy_unpack_collision_witness :
  exists msg names pre post,
    Steppy._unpack [("input_1", [("features", VInt 1); ("labels", VInt 2)]);
                    ("input_3", [("images", VInt 3); ("labels", VInt 4)])]
      = Err (StepsError msg) /\
    msg = (pre ++ Steppy.repeated_entry ("labels", names) ++ post) /\
    In "input_1" names /\ In "input_3" names.
Proof.
  apply (steppy_unpack_collision _ "labels" "input_1" [("features", VInt 1); ("labels", VInt 2)]
           "input_3" [("images", VInt 3); ("labels", VInt 4)]).
  - intros np [<- | [<- | []]]; simpl; repeat constructor; simpl; intuition discriminate.
  - simpl. tauto.
  - simpl. tauto.
  - discriminate.
  - reflexivity.
  - reflexivity.
Defined.

Lemma lex_topo_sound_witness :
  NoDup (fst (Millet.lex_topo 4 (Millet._graph diamond) ["A"; "B"; "C"; "D"] [])) /\
  preds_first (Millet._graph diamond) ["A"; "B"; "C"; "D"]
    (fst (Millet.lex_topo 4 (Millet._graph diamond) ["A"; "B"; "C"; "D"] [])) /\
  exists ext, fst (Millet.lex_topo 4 (Millet._graph diamond) ["A"; "B"; "C"; "D"] [])
                = ([] ++ ext)%list /\ forall v, In v ext -> In v ["A"; "B"; "C"; "D"].
Proof.
  apply lex_topo_sound.
  - constructor.
  - intros [|i] v H; discriminate.
Defined.

(** ** The recipes of steppy's Adapter and of the adapter of steps *)

Module AdapterFacts.

Local Open Scope string_scope.

Lemma dict_set_fresh {V} (d : list (string * V)) k v :
  ~ In k (map fst d) -> dict_set d k v = (d ++ [(k, v)])%list.
Proof.
  induction d as [|[k' v'] d IH]; simpl; [reflexivity|].
  intros Hn. destruct (String.eqb k k') eqn:E.
  - apply String.eqb_eq in E. subst. tauto.
  - rewrite IH by tauto. reflexivity.
Qed.

Lemma fold_res_dict_set {A} (f : A -> result value) (l : list (string * A)) acc :
  NoDup (map fst l) -> (forall k, In k (map fst l) -> ~ In k (map fst acc)) ->
  fold_res (fun adapted nr => v <- f (snd nr) ;; Ok (dict_set adapted (fst nr) v)) l acc
  = (vs <- map_res (fun nr => f (snd nr)) l ;; Ok (acc ++ combine (map fst l) vs))%list.
Proof.
  revert acc. induction l as [|[k a] l IH]; intros acc Hnd Hdis; simpl.
  - now rewrite app_nil_r.
  - inversion Hnd as [|? ? Hk Hnd']; subst.
    destruct (f a) as [v|e]; simpl; [|reflexivity].
    rewrite dict_set_fresh by (apply Hdis; now left).
    rewrite IH; [| exact Hnd' |].
    + destruct (map_res (fun nr => f (snd nr)) l); simpl; [|reflexivity].
      now rewrite <- app_assoc.
    + intros k' Hk' Hin. rewrite map_app in Hin. apply in_app_or in Hin as [Hin|[<-|[]]].
      * apply (Hdis k'); [now right | exact Hin].
      * tauto.
Qed.

Theorem adapt_result_shape (recipes : list (string * value)) (inputs : list (string * payload)) :
  NoDup (map fst recipes) ->
  Adapter.adapt recipes inputs
    = (vs <- map_res (fun nr => Adapter._construct inputs (snd nr)) recipes ;;
       Ok (combine (map fst recipes) vs)) /\
  (forall py_call, Steps.adapt py_call recipes inputs
    = (vs <- map_res (fun nr => Steps.adapt_entry py_call inputs (snd nr)) recipes ;;
       Ok (combine (map fst recipes) vs))).
Proof.
  intros Hnd. split; [|intros py_call];
    [unfold Adapter.adapt | unfold Steps.adapt]; rewrite fold_res_dict_set; auto.
Qed.

Lemma construct_list i l :
  Adapter._construct i (VList l) = (vs <- map_res (Adapter._construct i) l ;; Ok (VList vs)).
Proof.
  induction l as [|r l IH]; [reflexivity|].
  simpl in *. destruct (Adapter._construct i r); simpl; [|reflexivity].
  revert IH.
  match goal with |- (bind ?x _ = _) -> _ => destruct x end;
  destruct (map_res (Adapter._construct i) l); simpl; congruence.
Qed.

Theorem adapter_composite_recipes (i : list (string * payload))
    (pairs : list (string * string)) (entries : list (string * (string * string))) :
  Adapter._construct i (VList (map pair_value pairs))
    = (vs <- map_res (fun p => Adapter._construct_element i (fst p) (snd p)) pairs ;;
       Ok (VList vs)) /\
  Adapter._construct i (VTuple (map pair_value pairs))
    = (vs <- map_res (fun p => Adapter._construct_element i (fst p) (snd p)) pairs ;;
       Ok (VTuple vs)) /\
  (NoDup (map fst entries) ->
   Adapter._construct i (VDict (map (fun e => (VStr (fst e), pair_value (snd e))) entries))
    = (vs <- map_res (fun e => Adapter._construct_element i (fst (snd e)) (snd (snd e))) entries ;;
       Ok (VDict (combine (map (fun e => VStr (fst e)) entries) vs)))).
Proof.
  assert (Hm : map_res (Adapter._construct i) (map pair_value pairs)
               = map_res (fun p => Adapter._construct_element i (fst p) (snd p)) pairs).
  { induction pairs as [|[a b] ps IH]; simpl; [reflexivity|]. now rewrite IH. }
  split; [|split].
  - now rewrite construct_list, Hm.
  - pose proof (construct_list i (map pair_value pairs)) as HL.
    rewrite Hm in HL. destruct pairs as [|[a b] ps]; [reflexivity|].
    simpl in HL |- *. revert HL.
    destruct (Adapter._construct_element i a b); simpl; [|reflexivity].
    match goal with |- (bind ?x _ = _) -> _ => destruct x end;
    destruct (map_res (fun p : string * string => Adapter._construct_element i (fst p) (snd p)) ps);
    simpl; congruence.
  - intros Hnd. simpl.
    match goal with |- bind (?F [] _) _ = _ =>
      assert (HF : forall ents acc,
        NoDup (map fst ents) ->
        (forall k, In k (map fst ents) -> forall v, ~ In (VStr k, v) acc) ->
        F acc (map (fun e => (VStr (fst e), pair_value (snd e))) ents)
        = (vs <- map_res (fun e => Adapter._construct_element i (fst (snd e)) (snd (snd e))) ents ;;
           Ok (acc ++ combine (map (fun e => VStr (fst e)) ents) vs))%list) end.
    { induction ents as [|[k [a b]] ents IH]; intros acc Hn Hacc; simpl.
      - now rewrite app_nil_r.
      - inversion Hn as [|? ? Hk Hn']; subst.
        destruct (Adapter._construct_element i a b) as [v|e]; simpl; [|reflexivity].
        assert (Hs : vdict_set acc (VStr k) v = (acc ++ [(VStr k, v)])%list).
        { clear -Hacc. induction acc as [|[k' v'] acc IHa]; [reflexivity|].
          change (vdict_set ((k', v') :: acc) (VStr k) v) with
            (if py_eqb (VStr k) k' then (k', v) :: acc else (k', v') :: vdict_set acc (VStr k) v).
          destruct (py_eqb (VStr k) k') eqn:E.
          - destruct k'; try discriminate. simpl in E. apply String.eqb_eq in E. subst.
            exfalso. apply (Hacc s (or_introl eq_refl) v'). now left.
          - rewrite IHa; [reflexivity|]. intros k0 Hk0 v0 Hin. apply (Hacc k0 Hk0 v0). now right. }
        rewrite Hs, IH; [| exact Hn' |].
        + destruct (map_res _ ents); simpl; [|reflexivity]. now rewrite <- app_assoc.
        + intros k0 Hk0 v0 Hin. apply in_app_or in Hin as [Hin|[Heq|[]]].
          * apply (Hacc k0 (or_intror Hk0) v0 Hin).
          * injection Heq as -> _. tauto. }
    specialize (HF entries [] Hnd ltac:(simpl; tauto)). simpl in HF. rewrite HF.
    destruct (map_res _ entries); reflexivity.
Qed.

Lemma adapt_result_shape_witness :
  NoDup (map fst [("X", VTuple [VStr "input_1"; VStr "features"]); ("Y", VList [])]) /\
  Adapter.adapt [("X", VTuple [VStr "input_1"; VStr "features"]); ("Y", VList [])] data_1
    = (vs <- map_res (fun nr => Adapter._construct data_1 (snd nr))
                     [("X", VTuple [VStr "input_1"; VStr "features"]); ("Y", VList [])] ;;
       Ok (combine ["X"; "Y"] vs)).
Proof.
  assert (Hnd : NoDup (map fst [("X", VTuple [VStr "input_1"; VStr "features"]); ("Y", VList [])])).
  { simpl. constructor; [simpl; intros [H|[]]; discriminate | constructor; [simpl; tauto | constructor]]. }
  split; [exact Hnd|].
  exact (proj1 (adapt_result_shape _ data_1 Hnd)).
Defined.

End AdapterFacts.

(** ** What a successful [MultiPipeline.run] returns *)

Module MilletFacts.

Local Open Scope string_scope.



Lemma dedupe_In_gen (l a : list string) x :
  In x a \/ In x l ->
  In x (fold_left (fun a x => if Millet.mem x a then a else (a ++ [x])%list) l a).
Proof.
  revert a. induction l as [|y l IH]; intros a H; simpl.
  - destruct H as [H|[]]. exact H.
  - apply IH. destruct H as [H|[->|H]]; [left|left|right; exact H].
    + destruct (Millet.mem y a); [exact H | apply in_or_app; now left].
    + destruct (Millet.mem x a) eqn:E; [now apply mem_In | apply in_or_app; right; now left].
Qed.

Lemma dedupe_In (l : list string) x : In x l -> In x (Millet.dedupe l).
Proof. intros H. apply dedupe_In_gen. now right. Qed.

Lemma map_res_Ok {A B} (f : A -> result B) l vs :
  map_res f l = Ok vs -> forall x, In x l -> exists v, f x = Ok v.
Proof.
  revert vs. induction l as [|y l IH]; intros vs H x Hx; [destruct Hx|].
  simpl in H. destruct (f y) as [v|e] eqn:Ef; simpl in H; [|discriminate].
  destruct (map_res f l) as [vs'|e] eqn:Em; simpl in H; [|discriminate].
  destruct Hx as [<-|Hx]; [eauto | eapply IH; eauto].
Qed.

Lemma lex_topo_cyclic fuel g sub done order cyclic :
  Millet.lex_topo fuel g sub done = (order, cyclic) ->
  cyclic = existsb (fun v => negb (Millet.mem v order)) sub.
Proof.
  revert done. induction fuel as [|fuel IH]; intros done H; simpl in H.
  - now injection H as <- <-.
  - destruct (Millet.min_name _); [eapply IH; exact H | now injection H as <- <-].
Qed.

Lemma ancestors_has_node g n ancs : Millet.ancestors g n = Ok ancs -> Millet.has_node g n = true.
Proof. unfold Millet.ancestors. destruct (Millet.has_node g n); congruence. Qed.

Lemma run_plan_covers g outs fits order :
  Millet.run_plan g outs fits = Ok (order, false) ->
  forall n, In n (outs ++ fits) -> In n order.
Proof.
  unfold Millet.run_plan. intros H n Hn.
  assert (Hu : In n (Millet.dedupe (outs ++ fits))) by now apply dedupe_In.
  destruct (Millet.dedupe (outs ++ fits)) as [|u us] eqn:Ed; [destruct Hu|].
  rewrite <- Ed in H, Hu.
  destruct (map_res (Millet.ancestors g) _) as [ancs|e] eqn:Ea; simpl in H; [|discriminate].
  injection H as H.
  destruct (map_res_Ok _ _ _ Ea n Hu) as [an Han].
  apply ancestors_has_node in Han. unfold Millet.has_node in Han.
  destruct (dict_get (Millet.nodes g) n) as [nd|] eqn:Eg; [|discriminate].
  apply dict_get_In in Eg.
  apply lex_topo_cyclic in H.
  assert (Hs : In n (filter (fun m => Millet.mem m (Millet.dedupe (Millet.dedupe (outs ++ fits) ++ concat ancs)))
                       (map fst (Millet.nodes g)))).
  { apply filter_In. split.
    - apply in_map_iff. exists (n, nd). auto.
    - apply mem_In, dedupe_In, in_or_app. now left. }
  destruct (Millet.mem n order) eqn:Hm; [now apply mem_In|].
  assert (Hx : existsb (fun v => negb (Millet.mem v order))
                 (filter (fun m => Millet.mem m (Millet.dedupe (Millet.dedupe (outs ++ fits) ++ concat ancs)))
                    (map fst (Millet.nodes g))) = true).
  { apply existsb_exists. exists n. split; [exact Hs | now rewrite Hm]. }
  congruence.
Qed.

Lemma set_node_output mp l n s o :
  Millet.get_step_output (Millet.set_node (Millet.print mp l) n (Millet.mkNode s (Some o))) n = Some o /\
  (forall m, m <> n ->
   Millet.get_step_output (Millet.set_node (Millet.print mp l) n (Millet.mkNode s (Some o))) m
   = Millet.get_step_output mp m).
Proof.
  unfold Millet.get_step_output, Millet.set_node. simpl. split.
  - now rewrite dict_get_set_eq.
  - intros m Hm. now rewrite dict_get_set_neq.
Qed.

Lemma run_node_ok info fits mp n u mp' :
  Millet.run_node info fits mp n = (Ok u, mp') ->
  (exists p, Millet.get_step_output mp' n = Some p) /\
  (forall m, m <> n -> Millet.get_step_output mp' m = Millet.get_step_output mp m).
Proof.
  unfold Millet.run_node. intros H.
  repeat (match type of H with context [match ?x with _ => _ end] => destruct x end);
    try discriminate;
    injection H as _ <-;
    match goal with |- context [Millet.mkNode ?s (Some ?o)] =>
      destruct (set_node_output mp ("[MultiPipeline] Running node " ++ n) n s o) as [A B] end;
    eauto.
Qed.

Lemma run_nodes_ok info fits order : forall mp u mp',
  Millet.run_nodes info fits order mp = (Ok u, mp') ->
  forall n, (In n order \/ exists p, Millet.get_step_output mp n = Some p) ->
  exists p, Millet.get_step_output mp' n = Some p.
Proof.
  induction order as [|a order IH]; intros mp u mp' H n Hn; simpl in H.
  - injection H as _ <-. destruct Hn as [[]|Hn]. exact Hn.
  - destruct (Millet.run_node info fits mp a) as [[u1|e] mp1] eqn:Ha; [|discriminate].
    destruct (run_node_ok _ _ _ _ _ _ Ha) as [A B].
    apply (IH mp1 u mp' H n).
    destruct (string_dec n a) as [->|Hne]; [right; exact A|].
    destruct Hn as [[E|Hn]|[p Hp]]; [congruence | now left | right].
    exists p. rewrite B by exact Hne. exact Hp.
Qed.

Lemma fold_dict_set_other {V} (f : string -> V) l d n :
  ~ In n l -> dict_get (fold_left (fun d m => dict_set d m (f m)) l d) n = dict_get d n.
Proof.
  revert d. induction l as [|a l IH]; intros d Hn; simpl; [reflexivity|].
  rewrite IH by (intros Hl; apply Hn; now right). apply dict_get_set_neq. intros ->. apply Hn. now left.
Qed.

Lemma fold_dict_set_In {V} (f : string -> V) l d n :
  In n l -> dict_get (fold_left (fun d m => dict_set d m (f m)) l d) n = Some (f n).
Proof.
  revert d. induction l as [|a l IH]; intros d Hn; simpl; [destruct Hn|].
  destruct (in_dec string_dec n l) as [Hl|Hl]; [now apply IH|].
  destruct Hn as [->|Hn]; [|tauto].
  rewrite fold_dict_set_other by exact Hl. apply dict_get_set_eq.
Qed.

Theorem run_returns_computed_outputs mp info outs fits res mp2 :
  Millet.run mp info outs fits = (Ok res, mp2) ->
  forall n, In n outs ->
  exists p, dict_get res n = Some (Some p) /\ Millet.get_step_output mp2 n = Some p.
Proof.
  unfold Millet.run. intros H n Hn.
  destruct (Millet.run_plan _ outs fits) as [[order cyclic]|e] eqn:Hp; [|discriminate].
  destruct (Millet.run_nodes info fits order _) as [[u|e] mp'] eqn:Hr; [|discriminate].
  destruct cyclic; [discriminate|]. injection H as <- <-.
  destruct (run_nodes_ok _ _ _ _ _ _ Hr n) as [p Hq].
  - left. apply (run_plan_covers _ _ _ _ Hp). apply in_or_app. now left.
  - exists p. split; [|exact Hq]. rewrite fold_dict_set_In by exact Hn. now rewrite Hq.
Qed.

Lemma run_returns_computed_outputs_witness :
  Millet.run diamond [("X", VInt 7)] ["D"] []
    = (Ok [("D", Some [("X", VInt 7); ("Y", VInt 7)])],
       snd (Millet.run diamond [("X", VInt 7)] ["D"] [])) /\
  exists p, dict_get [("D", Some [("X", VInt 7); ("Y", VInt 7)])] "D" = Some (Some p) /\
    Millet.get_step_output (snd (Millet.run diamond [("X", VInt 7)] ["D"] [])) "D" = Some p.
Proof.
  assert (E : Millet.run diamond [("X", VInt 7)] ["D"] []
    = (Ok [("D", Some [("X", VInt 7); ("Y", VInt 7)])],
       snd (Millet.run diamond [("X", VInt 7)] ["D"] []))) by (vm_compute; reflexivity).
  split; [exact E|].
  exact (run_returns_computed_outputs diamond [("X", VInt 7)] ["D"] [] _ _ E "D" (or_introl eq_refl)).
Defined.


(** ** Registering a step: the mappings on the edges *)

Lemma edge_eqb_true e1 e2 : Millet.edge_eqb e1 e2 = true <-> e1 = e2.
Proof.
  destruct e1 as [a b], e2 as [c d]. unfold Millet.edge_eqb. simpl.
  rewrite andb_true_iff, !String.eqb_eq. split; [intros [-> ->]; reflexivity | intros H; now injection H].
Qed.

Lemma edge_get_set_eq es e d : Millet.edge_get (Millet.edge_set es e d) e = Some d.
Proof.
  induction es as [|[e' d'] es IH]; simpl.
  - assert (H : Millet.edge_eqb e e = true) by now apply edge_eqb_true. now rewrite H.
  - destruct (Millet.edge_eqb e e') eqn:E; simpl; [now rewrite E | now rewrite E].
Qed.

Lemma edge_get_set_neq es e e' d :
  e' <> e -> Millet.edge_get (Millet.edge_set es e d) e' = Millet.edge_get es e'.
Proof.
  intros Hne. induction es as [|[e0 d0] es IH]; simpl.
  - destruct (Millet.edge_eqb e' e) eqn:E; [apply edge_eqb_true in E; congruence | reflexivity].
  - destruct (Millet.edge_eqb e e0) eqn:E; simpl.
    + apply edge_eqb_true in E. subst.
      destruct (Millet.edge_eqb e' e0) eqn:E'; [apply edge_eqb_true in E'; congruence | reflexivity].
    + destruct (Millet.edge_eqb e' e0); [reflexivity | exact IH].
Qed.

Lemma add_edge_edges_get g u v e :
  Millet.edge_get (Millet.edges (Millet.add_edge g u v)) e
  = if Millet.edge_eqb e (u, v) then Some (Millet.mkEdata None None) else Millet.edge_get (Millet.edges g) e.
Proof.
  unfold Millet.add_edge. simpl. destruct (Millet.edge_eqb e (u, v)) eqn:E.
  - apply edge_eqb_true in E. subst. apply edge_get_set_eq.
  - apply edge_get_set_neq. intros ->. assert (H : Millet.edge_eqb (u, v) (u, v) = true) by now apply edge_eqb_true.
    congruence.
Qed.

Lemma connect_input_one mp n k src sk :
  let mp' := Millet._connect_input_mapping mp n [(k, (src, sk))] in
  (exists d, Millet.edge_get (Millet.edges (Millet._graph mp')) (src, n) = Some d /\
     Millet.source_data_keys d = Some (dict_set (keys_before Millet.source_data_keys (Millet._graph mp) (src, n)) k sk)) /\
  (forall e, e <> (src, n) ->
     Millet.edge_get (Millet.edges (Millet._graph mp')) e = Millet.edge_get (Millet.edges (Millet._graph mp)) e) /\
  (forall d, Millet.edge_get (Millet.edges (Millet._graph mp)) (src, n) = Some d ->
     exists d', Millet.edge_get (Millet.edges (Millet._graph mp')) (src, n) = Some d' /\
       Millet.source_superv_keys d' = Millet.source_superv_keys d).
Proof.
  unfold Millet._connect_input_mapping. cbn [fold_left]. unfold Millet.has_edge, keys_before.
  destruct (Millet.edge_get (Millet.edges (Millet._graph mp)) (src, n)) as [d0|] eqn:E0; cbn iota beta zeta.
  - rewrite E0. split; [|split].
    + eexists. split; [apply edge_get_set_eq | reflexivity].
    + intros e He. apply edge_get_set_neq. exact He.
    + intros d Hd. injection Hd as <-. eexists. split; [apply edge_get_set_eq | reflexivity].
  - rewrite add_edge_edges_get.
    assert (H : Millet.edge_eqb (src, n) (src, n) = true) by now apply edge_eqb_true. rewrite H. cbn iota. cbn [Millet._graph Millet.edges Millet.source_data_keys Millet.source_superv_keys].
    split; [|split].
    + eexists. split; [apply edge_get_set_eq | reflexivity].
    + intros e He. rewrite edge_get_set_neq by exact He. rewrite add_edge_edges_get.
      destruct (Millet.edge_eqb e (src, n)) eqn:E; [apply edge_eqb_true in E; congruence | reflexivity].
    + intros d Hd. discriminate.
Qed.

Lemma connect_superv_one mp n k src sk :
  let mp' := Millet._connect_superv_mapping mp n [(k, (src, sk))] in
  (exists d, Millet.edge_get (Millet.edges (Millet._graph mp')) (src, n) = Some d /\
     Millet.source_superv_keys d = Some (dict_set (keys_before Millet.source_superv_keys (Millet._graph mp) (src, n)) k sk)) /\
  (forall e, e <> (src, n) ->
     Millet.edge_get (Millet.edges (Millet._graph mp')) e = Millet.edge_get (Millet.edges (Millet._graph mp)) e) /\
  (forall d, Millet.edge_get (Millet.edges (Millet._graph mp)) (src, n) = Some d ->
     exists d', Millet.edge_get (Millet.edges (Millet._graph mp')) (src, n) = Some d' /\
       Millet.source_data_keys d' = Millet.source_data_keys d).
Proof.
  unfold Millet._connect_superv_mapping. cbn [fold_left]. unfold Millet.has_edge, keys_before.
  destruct (Millet.edge_get (Millet.edges (Millet._graph mp)) (src, n)) as [d0|] eqn:E0; cbn iota beta zeta.
  - rewrite E0. split; [|split].
    + eexists. split; [apply edge_get_set_eq | reflexivity].
    + intros e He. apply edge_get_set_neq. exact He.
    + intros d Hd. injection Hd as <-. eexists. split; [apply edge_get_set_eq | reflexivity].
  - rewrite add_edge_edges_get.
    assert (H : Millet.edge_eqb (src, n) (src, n) = true) by now apply edge_eqb_true. rewrite H. cbn iota. cbn [Millet._graph Millet.edges Millet.source_data_keys Millet.source_superv_keys].
    split; [|split].
    + eexists. split; [apply edge_get_set_eq | reflexivity].
    + intros e He. rewrite edge_get_set_neq by exact He. rewrite add_edge_edges_get.
      destruct (Millet.edge_eqb e (src, n)) eqn:E; [apply edge_eqb_true in E; congruence | reflexivity].
    + intros d Hd. discriminate.
Qed.

Lemma connect_input_mapping_recorded m : forall mp n done,
  mapping_recorded Millet.source_data_keys mp n done ->
  (forall k, In k (map fst m) -> ~ In k (map fst done)) -> NoDup (map fst m) ->
  mapping_recorded Millet.source_data_keys (Millet._connect_input_mapping mp n m) n (done ++ m).
Proof.
  induction m as [|[k' [src' sk']] m IH]; intros mp n done Hr Hd Hn.
  - now rewrite app_nil_r.
  - change (Millet._connect_input_mapping mp n ((k', (src', sk')) :: m))
      with (Millet._connect_input_mapping (Millet._connect_input_mapping mp n [(k', (src', sk'))]) n m).
    inversion Hn as [|? ? Hk Hn']; subst.
    replace (done ++ (k', (src', sk')) :: m)%list with ((done ++ [(k', (src', sk'))]) ++ m)%list
      by now rewrite <- app_assoc.
    destruct (connect_input_one mp n k' src' sk') as [[d1 [E1 K1]] [Oth _]].
    apply IH; [| |exact Hn'].
    + intros k src sk Hin. apply in_app_or in Hin as [Hin|[Heq|[]]].
      * destruct (Hr k src sk Hin) as (d & ks & Ed & Kd & Gd).
        assert (Hkk : k <> k').
        { intros ->. apply (Hd k' (or_introl eq_refl)). apply in_map_iff. exists (k', (src, sk)). auto. }
        destruct (string_dec src src') as [->|Hs].
        -- exists d1. eexists. split; [exact E1|]. split; [exact K1|].
           unfold keys_before. rewrite Ed, Kd. rewrite dict_get_set_neq by exact Hkk. exact Gd.
        -- exists d, ks. rewrite Oth by congruence. auto.
      * injection Heq as <- <- <-. exists d1. eexists. split; [exact E1|]. split; [exact K1|].
        apply dict_get_set_eq.
    + intros k Hk1 Hk2. rewrite map_app in Hk2. apply in_app_or in Hk2 as [Hk2|[Hk2|[]]].
      * apply (Hd k (or_intror Hk1) Hk2).
      * subst. tauto.
Qed.

Lemma connect_superv_mapping_recorded m : forall mp n done,
  mapping_recorded Millet.source_superv_keys mp n done ->
  (forall k, In k (map fst m) -> ~ In k (map fst done)) -> NoDup (map fst m) ->
  mapping_recorded Millet.source_superv_keys (Millet._connect_superv_mapping mp n m) n (done ++ m).
Proof.
  induction m as [|[k' [src' sk']] m IH]; intros mp n done Hr Hd Hn.
  - now rewrite app_nil_r.
  - change (Millet._connect_superv_mapping mp n ((k', (src', sk')) :: m))
      with (Millet._connect_superv_mapping (Millet._connect_superv_mapping mp n [(k', (src', sk'))]) n m).
    inversion Hn as [|? ? Hk Hn']; subst.
    replace (done ++ (k', (src', sk')) :: m)%list with ((done ++ [(k', (src', sk'))]) ++ m)%list
      by now rewrite <- app_assoc.
    destruct (connect_superv_one mp n k' src' sk') as [[d1 [E1 K1]] [Oth _]].
    apply IH; [| |exact Hn'].
    + intros k src sk Hin. apply in_app_or in Hin as [Hin|[Heq|[]]].
      * destruct (Hr k src sk Hin) as (d & ks & Ed & Kd & Gd).
        assert (Hkk : k <> k').
        { intros ->. apply (Hd k' (or_introl eq_refl)). apply in_map_iff. exists (k', (src, sk)). auto. }
        destruct (string_dec src src') as [->|Hs].
        -- exists d1. eexists. split; [exact E1|]. split; [exact K1|].
           unfold keys_before. rewrite Ed, Kd. rewrite dict_get_set_neq by exact Hkk. exact Gd.
        -- exists d, ks. rewrite Oth by congruence. auto.
      * injection Heq as <- <- <-. exists d1. eexists. split; [exact E1|]. split; [exact K1|].
        apply dict_get_set_eq.
    + intros k Hk1 Hk2. rewrite map_app in Hk2. apply in_app_or in Hk2 as [Hk2|[Hk2|[]]].
      * apply (Hd k (or_intror Hk1) Hk2).
      * subst. tauto.
Qed.

Lemma connect_superv_keeps_data m : forall mp n e,
  mapping_recorded Millet.source_data_keys mp n e ->
  mapping_recorded Millet.source_data_keys (Millet._connect_superv_mapping mp n m) n e.
Proof.
  induction m as [|[k' [src' sk']] m IH]; intros mp n e Hr; [exact Hr|].
  change (Millet._connect_superv_mapping mp n ((k', (src', sk')) :: m))
    with (Millet._connect_superv_mapping (Millet._connect_superv_mapping mp n [(k', (src', sk'))]) n m).
  apply IH. destruct (connect_superv_one mp n k' src' sk') as [_ [Oth Same]].
  intros k src sk Hin. destruct (Hr k src sk Hin) as (d & ks & Ed & Kd & Gd).
  destruct (string_dec src src') as [->|Hs].
  - destruct (Same d Ed) as [d' [E' K']]. exists d', ks. rewrite K'. auto.
  - exists d, ks. rewrite Oth by congruence. auto.
Qed.

(** Registration records the mappings: after [add_superv] (or
    [add_unsuperv], with no supervision mapping) succeeds for node [n], each
    entry [k: (src, sk)] of the input mapping is found on the edge
    [(src, n)] under [source_data_keys], mapping [k] to [sk], and each entry
    of the supervision mapping likewise under [source_superv_keys]. The
    mappings are Python dicts, so their keys are distinct. *)
Theorem add_step_records_mappings mp (t : Millet.mstep) n im sm u mp' :
  NoDup (map fst im) -> NoDup (map fst sm) ->
  (Millet.add_superv mp t n im sm = (Ok u, mp') \/
   (sm = [] /\ Millet.add_unsuperv mp t n im = (Ok u, mp'))) ->
  (forall k src sk, In (k, (src, sk)) im ->
     exists d ks, Millet.edge_get (Millet.edges (Millet._graph mp')) (src, n) = Some d /\
       Millet.source_data_keys d = Some ks /\ dict_get ks k = Some sk) /\
  (forall k src sk, In (k, (src, sk)) sm ->
     exists d ks, Millet.edge_get (Millet.edges (Millet._graph mp')) (src, n) = Some d /\
       Millet.source_superv_keys d = Some ks /\ dict_get ks k = Some sk).
Proof.
  intros Hi Hs H.
  assert (R0 : forall keys_of (mp0 : Millet.multipipeline), mapping_recorded keys_of mp0 n []) by (intros ? ? ? ? ? []).
  assert (Hnil : forall (m : list (string * (string * string))) k, In k (map fst m) -> ~ In k (map fst (@nil (string * (string * string))))) by (intros ? ? ? []).
  destruct H as [H|[-> H]].
  - unfold Millet.add_superv in H. destruct t; try discriminate.
    destruct (Millet._check_add_step mp _ n) as [[u1|e] mp1]; [|discriminate].
    injection H as _ <-.
    split.
    + apply connect_superv_keeps_data.
      exact (connect_input_mapping_recorded im mp1 n [] (R0 _ _) (Hnil im) Hi).
    + exact (connect_superv_mapping_recorded sm _ n [] (R0 _ _) (Hnil sm) Hs).
  - unfold Millet.add_unsuperv in H. destruct t; try discriminate.
    destruct (Millet._check_add_step mp _ n) as [[u1|e] mp1]; [|discriminate].
    injection H as _ <-.
    split; [|intros ? ? ? []].
    exact (connect_input_mapping_recorded im mp1 n [] (R0 _ _) (Hnil im) Hi).
Qed.

Lemma add_step_records_mappings_witness :
  let r := Millet.add_superv diamond superv_identity "E"
             [("X", ("B", "X")); ("Z", ("D", "Y"))] [("y", ("A", "X")); ("w", ("B", "X"))] in
  r = (Ok tt, snd r) /\
  (forall k src sk, In (k, (src, sk)) [("X", ("B", "X")); ("Z", ("D", "Y"))] ->
     exists d ks, Millet.edge_get (Millet.edges (Millet._graph (snd r))) (src, "E") = Some d /\
       Millet.source_data_keys d = Some ks /\ dict_get ks k = Some sk) /\
  (forall k src sk, In (k, (src, sk)) [("y", ("A", "X")); ("w", ("B", "X"))] ->
     exists d ks, Millet.edge_get (Millet.edges (Millet._graph (snd r))) (src, "E") = Some d /\
       Millet.source_superv_keys d = Some ks /\ dict_get ks k = Some sk).
Proof.
  intros r.
  assert (E : r = (Ok tt, snd r)) by (vm_compute; reflexivity).
  split; [exact E|].
  apply (add_step_records_mappings diamond superv_identity "E"
           [("X", ("B", "X")); ("Z", ("D", "Y"))] [("y", ("A", "X")); ("w", ("B", "X"))] tt (snd r)).
  - repeat constructor; cbn; intuition discriminate.
  - repeat constructor; cbn; intuition discriminate.
  - left. exact E.
Defined.

End MilletFacts.

(** ** The step engine: invariants, caches, [get_step], [clean_cache] and
    the pipeline structure *)

Module EngineFacts.

Import StepEngine.
Local Open Scope string_scope.

Lemma with_transformer_same st : with_transformer st (transformer st) = st.
Proof. destruct st; reflexivity. Qed.

Lemma steps_kept_refl w : steps_kept w w.
Proof. intros sid st H. exists (transformer st). now rewrite with_transformer_same. Qed.

Lemma steps_kept_eq w w' : steps w' = steps w -> steps_kept w w'.
Proof. intros E sid st H. exists (transformer st). rewrite E, H. now rewrite with_transformer_same. Qed.

Lemma steps_kept_trans w1 w2 w3 : steps_kept w1 w2 -> steps_kept w2 w3 -> steps_kept w1 w3.
Proof.
  intros H12 H23 sid st H. destruct (H12 sid st H) as [t1 H2].
  destruct (H23 sid _ H2) as [t2 H3]. exists t2. exact H3.
Qed.

Lemma nget_nset_neq {V} (d : list (nat * V)) k k' v :
  k' <> k -> nget (nset d k v) k' = nget d k'.
Proof.
  intros Hne. induction d as [|[k0 v0] d IH]; simpl.
  - destruct (Nat.eqb k' k) eqn:E; [apply Nat.eqb_eq in E; lia | reflexivity].
  - destruct (Nat.eqb k k0) eqn:E1; simpl.
    + apply Nat.eqb_eq in E1. subst.
      destruct (Nat.eqb k' k0) eqn:E2; [apply Nat.eqb_eq in E2; lia | reflexivity].
    + destruct (Nat.eqb k' k0); [reflexivity | exact IH].
Qed.

Lemma transformer_is_cached_kept sid w : steps_kept w (snd (transformer_is_cached sid w)).
Proof.
  unfold transformer_is_cached.
  destruct (nget (steps w) sid) as [st|] eqn:Hs; [|apply steps_kept_refl].
  destruct (transformer st) as [oid|rsid]; [apply steps_kept_refl|].
  destruct (nget (steps w) rsid) as [rst|]; [|apply steps_kept_refl].
  assert (K : steps_kept w (set_steps w (nset (steps w) sid (with_transformer st (transformer rst))))).
  { intros sid' st' H. simpl. destruct (Nat.eq_dec sid' sid) as [->|Hne].
    - rewrite Hs in H. injection H as <-. exists (transformer rst). apply nget_nset_eq.
    - exists (transformer st'). rewrite nget_nset_neq by exact Hne. now rewrite with_transformer_same. }
  simpl. destruct (dict_get (files w) _); simpl; [|exact K].
  destruct (String.eqb _ _); [exact K|].
  intros sid' st' H. destruct (K sid' st' H) as [t Ht]. exists t. exact Ht.
Qed.

Lemma transformer_is_cached_no_new sid w i :
  nget (steps w) i = None -> nget (steps (snd (transformer_is_cached sid w))) i = None.
Proof.
  intros Hi. unfold transformer_is_cached.
  destruct (nget (steps w) sid) as [st|] eqn:Hs; [|exact Hi].
  destruct (transformer st) as [oid|rsid]; [exact Hi|].
  destruct (nget (steps w) rsid) as [rst|]; [|exact Hi].
  assert (K : nget (nset (steps w) sid (with_transformer st (transformer rst))) i = None).
  { rewrite nget_nset_neq; [exact Hi | intros ->; congruence]. }
  simpl. destruct (dict_get _ _); [destruct (String.eqb _ _)|]; exact K.
Qed.

Lemma call_transformer_steps {A} sid (m : Transformers.base value -> st value A) w :
  steps (snd (call_transformer sid m w)) = steps w.
Proof.
  unfold call_transformer. destruct (nget (steps w) sid); [|reflexivity].
  destruct (transformer _); [|reflexivity]. destruct (nget (objs w) oid); [|reflexivity].
  destruct (m _ _); reflexivity.
Qed.

Lemma load_transformer_steps sid st w : steps (snd (load_transformer sid st w)) = steps w.
Proof. unfold load_transformer. now rewrite call_transformer_steps. Qed.

Lemma save_transformer_steps sid st w : steps (snd (save_transformer sid st w)) = steps w.
Proof.
  unfold save_transformer.
  pose proof (call_transformer_steps sid (fun c s => (Ok (Transformers.base_save value c s), s)) w) as H.
  destruct (call_transformer _ _ w) as [[v|e] w1]; simpl in *; exact H.
Qed.

Lemma store_outputs_steps st out w : steps (store_outputs st out w) = steps w.
Proof. unfold store_outputs. destruct (cache_output st), (save_output st); reflexivity. Qed.

Lemma _cached_fit_transform_steps sid si w :
  steps (snd (_cached_fit_transform sid si w)) = steps (snd (transformer_is_cached sid w)).
Proof.
  unfold _cached_fit_transform.
  destruct (transformer_is_cached sid w) as [[cached|e] w1]; [|reflexivity]. simpl.
  destruct (nget (steps w1) sid) as [st|]; [|reflexivity].
  destruct (cached && negb (force_fitting st)).
  - pose proof (load_transformer_steps sid st w1) as H1.
    destruct (load_transformer sid st w1) as [[u|e] w2]; simpl in H1; [|exact H1].
    pose proof (call_transformer_steps sid (fun c => Transformers.base_transform value c si)
                  (log w2 (EvTransform (name st)))) as H2.
    destruct (call_transformer _ _ _) as [[out|e] w3]; simpl in *;
      [rewrite store_outputs_steps|]; congruence.
  - pose proof (call_transformer_steps sid (fun c => Transformers.base_fit_transform c si)
                  (log w1 (EvFitTransform (name st)))) as H2.
    destruct (call_transformer _ _ _) as [[out|e] w3]; simpl in *; [|exact H2].
    pose proof (save_transformer_steps sid st w3) as H3.
    destruct (save_transformer sid st w3) as [[u|e] w4]; simpl in *;
      [rewrite store_outputs_steps|]; congruence.
Qed.

Lemma _cached_transform_steps sid si w :
  steps (snd (_cached_transform sid si w)) = steps (snd (transformer_is_cached sid w)).
Proof.
  unfold _cached_transform.
  destruct (transformer_is_cached sid w) as [[cached|e] w1]; [|reflexivity]. simpl.
  destruct (nget (steps w1) sid) as [st|]; [|reflexivity].
  destruct cached; [|reflexivity].
  pose proof (load_transformer_steps sid st w1) as H1.
  destruct (load_transformer sid st w1) as [[u|e] w2]; simpl in H1; [|exact H1].
  pose proof (call_transformer_steps sid (fun c => Transformers.base_transform value c si)
                (log w2 (EvTransform (name st)))) as H2.
  destruct (call_transformer _ _ _) as [[out|e] w3]; simpl in *;
    [rewrite store_outputs_steps|]; congruence.
Qed.

Section Preserve.
Variable R : world -> world -> Prop.
Hypothesis R_refl : forall w, R w w.
Hypothesis R_trans : forall w1 w2 w3, R w1 w2 -> R w2 w3 -> R w1 w3.

Lemma gather_steps_preserves call :
  (forall i w, R w (snd (call i w))) ->
  forall ids si w, R w (snd (gather_steps call ids si w)).
Proof.
  intros Hc ids. induction ids as [|i ids IH]; intros si w; simpl; [apply R_refl|].
  pose proof (Hc i w) as H1. destruct (call i w) as [[out|e] w1]; simpl in *; [|exact H1].
  destruct (nget (steps w1) i); [|exact H1].
  eapply R_trans; [exact H1 | apply IH].
Qed.

Lemma execute_preserves merge call finish sid st data w :
  (forall i w, R w (snd (call i w))) ->
  (forall si w, R w (snd (finish sid si w))) ->
  R w (snd (execute merge call finish sid st data w)).
Proof.
  intros Hc Hf. unfold execute.
  destruct (gather_input_data data (input_data st)) as [si0|e]; [|apply R_refl].
  pose proof (gather_steps_preserves call Hc (input_steps st) si0 w) as H1.
  destruct (gather_steps call (input_steps st) si0 w) as [[si|e] w1]; simpl in *; [|exact H1].
  destruct (merge st si); [|exact H1].
  eapply R_trans; [exact H1 | apply Hf].
Qed.

Lemma fit_transform_preserves merge :
  (forall sid si w, R w (snd (_cached_fit_transform sid si w))) ->
  forall fuel sid data w, R w (snd (fit_transform merge fuel sid data w)).
Proof.
  intros Hf fuel. induction fuel as [|fuel IH]; intros sid data w; simpl; [apply R_refl|].
  destruct (nget (steps w) sid) as [st|]; [|apply R_refl].
  destruct (_ && _); [apply R_refl|]. destruct (_ && _ && _); [apply R_refl|].
  apply execute_preserves; [intros; apply IH | intros; apply Hf].
Qed.

Lemma transform_preserves merge :
  (forall sid si w, R w (snd (_cached_transform sid si w))) ->
  forall fuel sid data w, R w (snd (transform merge fuel sid data w)).
Proof.
  intros Hf fuel. induction fuel as [|fuel IH]; intros sid data w; simpl; [apply R_refl|].
  destruct (nget (steps w) sid) as [st|]; [|apply R_refl].
  destruct (output_is_cached w st); [apply R_refl|]. destruct (_ && _); [apply R_refl|].
  apply execute_preserves; [intros; apply IH | intros; apply Hf].
Qed.

End Preserve.

Lemma fit_transform_kept merge fuel sid data w :
  steps_kept w (snd (fit_transform merge fuel sid data w)).
Proof.
  apply fit_transform_preserves; [exact steps_kept_refl | exact steps_kept_trans |].
  intros sid' si w'. eapply steps_kept_trans; [apply (transformer_is_cached_kept sid' w')|].
  apply steps_kept_eq. apply _cached_fit_transform_steps.
Qed.

Lemma transform_kept merge fuel sid data w :
  steps_kept w (snd (transform merge fuel sid data w)).
Proof.
  apply transform_preserves; [exact steps_kept_refl | exact steps_kept_trans |].
  intros sid' si w'. eapply steps_kept_trans; [apply (transformer_is_cached_kept sid' w')|].
  apply steps_kept_eq. apply _cached_transform_steps.
Qed.

Lemma fit_transform_no_new merge fuel sid data w :
  forall i, nget (steps w) i = None -> nget (steps (snd (fit_transform merge fuel sid data w))) i = None.
Proof.
  apply (fit_transform_preserves (fun w w' => forall i, nget (steps w) i = None -> nget (steps w') i = None));
    [auto | auto |].
  intros sid' si w' i H. rewrite _cached_fit_transform_steps. apply transformer_is_cached_no_new, H.
Qed.

Lemma transform_no_new merge fuel sid data w :
  forall i, nget (steps w) i = None -> nget (steps (snd (transform merge fuel sid data w))) i = None.
Proof.
  apply (transform_preserves (fun w w' => forall i, nget (steps w) i = None -> nget (steps w') i = None));
    [auto | auto |].
  intros sid' si w' i H. rewrite _cached_transform_steps. apply transformer_is_cached_no_new, H.
Qed.

Lemma exists_set_file w p q f :
  exists_ w p = true -> exists_ (set_files w (dict_set (files w) q f)) p = true.
Proof.
  unfold exists_; simpl. destruct (string_dec p q) as [->|Hne].
  - now rewrite dict_get_set_eq.
  - now rewrite dict_get_set_neq.
Qed.

Lemma store_outputs_files st out w :
  (cache_output st = true ->
   dict_get (files (store_outputs st out w)) (exp_dir_tmp_step st) = Some (FOutput out)) /\
  (save_output st = true ->
   dict_get (files (store_outputs st out w)) (exp_dir_outputs_step st) = Some (FOutput out)) /\
  (forall p, exists_ w p = true -> exists_ (store_outputs st out w) p = true).
Proof.
  unfold store_outputs, _save_output. split; [|split].
  - intros Hc. rewrite Hc. destruct (save_output st); simpl.
    + destruct (string_dec (exp_dir_tmp_step st) (exp_dir_outputs_step st)) as [E|Hne].
      * rewrite E. apply dict_get_set_eq.
      * rewrite dict_get_set_neq by exact Hne. apply dict_get_set_eq.
    + apply dict_get_set_eq.
  - intros Hs. rewrite Hs. simpl. apply dict_get_set_eq.
  - intros p Hp. destruct (cache_output st), (save_output st);
      repeat apply exists_set_file; exact Hp.
Qed.

Lemma call_transformer_files {A} sid (m : Transformers.base value -> st value A) w :
  files (snd (call_transformer sid m w)) = files w.
Proof.
  unfold call_transformer. destruct (nget (steps w) sid); [|reflexivity].
  destruct (transformer _); [|reflexivity]. destruct (nget (objs w) oid); [|reflexivity].
  destruct (m _ _); reflexivity.
Qed.

Lemma load_transformer_files sid st w : files (snd (load_transformer sid st w)) = files w.
Proof. unfold load_transformer. now rewrite call_transformer_files. Qed.

Lemma save_transformer_file sid st w u w' :
  save_transformer sid st w = (Ok u, w') -> exists_ w' (exp_dir_transformers_step st) = true.
Proof.
  unfold save_transformer.
  destruct (call_transformer _ _ w) as [[v|e] w1]; intros H; inversion H; subst.
  unfold exists_. simpl. now rewrite dict_get_set_eq.
Qed.

Lemma transformer_is_cached_true sid w w1 st :
  transformer_is_cached sid w = (Ok true, w1) -> nget (steps w1) sid = Some st ->
  exists_ w1 (exp_dir_transformers_step st) = true.
Proof.
  unfold transformer_is_cached.
  destruct (nget (steps w) sid) as [st0|] eqn:Hs; [|discriminate].
  destruct (transformer st0) as [oid|rsid]; [|].
  - intros H Hst. injection H as E <-. rewrite Hs in Hst. injection Hst as <-. now rewrite E.
  - destruct (nget (steps w) rsid) as [rst|]; [|discriminate]. simpl.
    destruct (dict_get (files w) _) as [f|]; [|discriminate].
    destruct (String.eqb _ _); [discriminate|].
    intros H Hst. injection H as E <-. simpl in Hst. rewrite nget_nset_eq in Hst.
    injection Hst as <-. exact E.
Qed.

Lemma _cached_fit_transform_files sid si w out w' :
  _cached_fit_transform sid si w = (Ok out, w') ->
  forall st, nget (steps w') sid = Some st ->
  (cache_output st = true -> dict_get (files w') (exp_dir_tmp_step st) = Some (FOutput out)) /\
  (save_output st = true -> dict_get (files w') (exp_dir_outputs_step st) = Some (FOutput out)) /\
  exists_ w' (exp_dir_transformers_step st) = true.
Proof.
  intros H st Hst.
  pose proof (_cached_fit_transform_steps sid si w) as HS. rewrite H in HS. simpl in HS.
  revert H. unfold _cached_fit_transform.
  destruct (transformer_is_cached sid w) as [[cached|e] w1] eqn:T; [|discriminate]. simpl in HS.
  rewrite HS in Hst. rewrite Hst.
  assert (Hfin : forall w2, steps w2 = steps w1 -> exists_ w2 (exp_dir_transformers_step st) = true ->
            (cache_output st = true -> dict_get (files (store_outputs st out w2)) (exp_dir_tmp_step st) = Some (FOutput out)) /\
            (save_output st = true -> dict_get (files (store_outputs st out w2)) (exp_dir_outputs_step st) = Some (FOutput out)) /\
            exists_ (store_outputs st out w2) (exp_dir_transformers_step st) = true).
  { intros w2 _ He. destruct (store_outputs_files st out w2) as [A [B C]]. auto. }
  destruct (cached && negb (force_fitting st)) eqn:Hc.
  - apply andb_true_iff in Hc as [-> _].
    pose proof (transformer_is_cached_true sid w w1 st T Hst) as Ex.
    pose proof (load_transformer_files sid st w1) as F1.
    pose proof (load_transformer_steps sid st w1) as S1.
    destruct (load_transformer sid st w1) as [[u|e] w2]; simpl in *; [|discriminate].
    pose proof (call_transformer_files sid (fun c => Transformers.base_transform value c si)
                  (log w2 (EvTransform (name st)))) as F2.
    pose proof (call_transformer_steps sid (fun c => Transformers.base_transform value c si)
                  (log w2 (EvTransform (name st)))) as S2.
    destruct (call_transformer _ _ _) as [[o|e] w3]; simpl in *; [|discriminate].
    intros E. injection E as <- <-. apply Hfin; [congruence|].
    unfold exists_ in *. rewrite F2, F1. exact Ex.
  - pose proof (call_transformer_steps sid (fun c => Transformers.base_fit_transform c si)
                  (log w1 (EvFitTransform (name st)))) as S2.
    destruct (call_transformer _ _ _) as [[o|e] w3]; simpl in *; [|discriminate].
    pose proof (save_transformer_steps sid st w3) as S3.
    destruct (save_transformer sid st w3) as [[u|e] w4] eqn:Sv; simpl in *; [|discriminate].
    intros E. injection E as <- <-. apply Hfin; [congruence|].
    exact (save_transformer_file _ _ _ _ _ Sv).
Qed.

Lemma _cached_transform_files sid si w out w' :
  _cached_transform sid si w = (Ok out, w') ->
  forall st, nget (steps w') sid = Some st ->
  (cache_output st = true -> dict_get (files w') (exp_dir_tmp_step st) = Some (FOutput out)) /\
  (save_output st = true -> dict_get (files w') (exp_dir_outputs_step st) = Some (FOutput out)).
Proof.
  intros H st Hst.
  pose proof (_cached_transform_steps sid si w) as HS. rewrite H in HS. simpl in HS.
  revert H. unfold _cached_transform.
  destruct (transformer_is_cached sid w) as [[cached|e] w1] eqn:T; [|discriminate]. simpl in HS.
  rewrite HS in Hst. rewrite Hst. destruct cached; [|discriminate].
  pose proof (load_transformer_steps sid st w1) as S1.
  destruct (load_transformer sid st w1) as [[u|e] w2]; simpl in *; [|discriminate].
  destruct (call_transformer _ _ _) as [[o|e] w3]; simpl in *; [|discriminate].
  intros E. injection E as -> <-. destruct (store_outputs_files st out w3) as [A [B _]]. auto.
Qed.

Lemma execute_ok merge call finish sid st data w out w' :
  execute merge call finish sid st data w = (Ok out, w') ->
  exists si w1, finish sid si w1 = (Ok out, w').
Proof.
  unfold execute. destruct (gather_input_data data (input_data st)); [|discriminate].
  destruct (gather_steps call (input_steps st) _ w) as [[si|e] w1]; [|discriminate].
  destruct (merge st si) as [si'|e]; [|discriminate]. eauto.
Qed.

Lemma first_call_cases merge fuel sid data w st out w' :
  nget (steps w) sid = Some st ->
  (fit_transform merge fuel sid data w = (Ok out, w') \/
   transform merge fuel sid data w = (Ok out, w')) ->
  (w' = w /\ output_is_cached w st = true /\ _load_output w (exp_dir_tmp_step st) = Ok out) \/
  (w' = w /\ output_is_cached w st = false /\
   output_is_saved w st && load_saved_output st = true /\
   _load_output w (exp_dir_outputs_step st) = Ok out) \/
  (exists si w1, _cached_fit_transform sid si w1 = (Ok out, w') \/
                 _cached_transform sid si w1 = (Ok out, w')).
Proof.
  intros Hs [H|H]; destruct fuel as [|fuel]; simpl in H; try discriminate; rewrite Hs in H.
  - destruct (output_is_cached w st) eqn:C; simpl in H.
    + destruct (force_fitting st); simpl in H.
      * rewrite andb_false_r in H. apply execute_ok in H as (si & w1 & H). right; right. eauto.
      * injection H as E <-. left. auto.
    + destruct (output_is_saved w st && load_saved_output st) eqn:Sv; simpl in H.
      * destruct (force_fitting st); simpl in H.
        -- apply execute_ok in H as (si & w1 & H). right; right. eauto.
        -- injection H as E <-. right; left. auto.
      * apply execute_ok in H as (si & w1 & H). right; right. eauto.
  - destruct (output_is_cached w st) eqn:C; simpl in H.
    + injection H as E <-. left. auto.
    + destruct (output_is_saved w st && load_saved_output st) eqn:Sv; simpl in H.
      * injection H as E <-. right; left. auto.
      * apply execute_ok in H as (si & w1 & H). right; right. eauto.
Qed.

Theorem cached_output_round_trip (merge merge' : stepr -> list (string * payload) -> result payload)
    fuel fuel' sid (data data' : list (string * payload)) w st out w' :
  nget (steps w) sid = Some st -> cache_output st = true ->
  (fit_transform merge fuel sid data w = (Ok out, w') \/
   transform merge fuel sid data w = (Ok out, w')) ->
  transform merge' (S fuel') sid data' w' = (Ok out, w') /\
  (force_fitting st = false -> fit_transform merge' (S fuel') sid data' w' = (Ok out, w')).
Proof.
  intros Hs Hc H.
  assert (K : steps_kept w w').
  { destruct H as [H|H];
      [pose proof (fit_transform_kept merge fuel sid data w) as K
      |pose proof (transform_kept merge fuel sid data w) as K]; rewrite H in K; exact K. }
  destruct (first_call_cases merge fuel sid data w st out w' Hs H)
    as [(-> & C & L) | [(-> & C & Sv & L) | (si & w1 & Hf)]].
  - simpl. rewrite Hs, C, L. split; [reflexivity|]. intros ->. reflexivity.
  - simpl. rewrite Hs, C, Sv, L. split; [reflexivity|]. intros ->. reflexivity.
  - destruct (K sid st Hs) as [t Ht].
    assert (F : dict_get (files w') (exp_dir_tmp_step st) = Some (FOutput out)).
    { destruct Hf as [Hf|Hf];
        [apply (_cached_fit_transform_files _ _ _ _ _ Hf) in Ht as [A _]
        |apply (_cached_transform_files _ _ _ _ _ Hf) in Ht as [A _]]; exact (A Hc). }
    simpl. rewrite Ht. unfold output_is_cached, exists_, _load_output. simpl.
    change (exp_dir_tmp_step (with_transformer st t)) with (exp_dir_tmp_step st).
    rewrite F. split; [reflexivity|]. intros ->. reflexivity.
Qed.

Lemma trace_grows_refl P w : trace_grows_by P w w.
Proof. exists []. now rewrite app_nil_r. Qed.

Lemma trace_grows_trans P w1 w2 w3 :
  trace_grows_by P w1 w2 -> trace_grows_by P w2 w3 -> trace_grows_by P w1 w3.
Proof.
  intros [e1 [H1 F1]] [e2 [H2 F2]]. exists (e1 ++ e2)%list. split.
  - rewrite H2, H1. symmetry; apply app_assoc.
  - apply Forall_app. auto.
Qed.

Lemma transformer_is_cached_trace sid w : trace (snd (transformer_is_cached sid w)) = trace w.
Proof.
  unfold transformer_is_cached. destruct (nget (steps w) sid); [|reflexivity].
  destruct (transformer _); [reflexivity|]. destruct (nget (steps w) sid0); [|reflexivity].
  simpl. destruct (dict_get _ _); [destruct (String.eqb _ _)|]; reflexivity.
Qed.

Lemma call_transformer_trace {A} sid (m : Transformers.base value -> st value A) w :
  trace (snd (call_transformer sid m w)) = trace w.
Proof.
  unfold call_transformer. destruct (nget (steps w) sid); [|reflexivity].
  destruct (transformer _); [|reflexivity]. destruct (nget (objs w) oid); [|reflexivity].
  destruct (m _ _); reflexivity.
Qed.

Lemma _cached_transform_trace sid si w :
  trace_grows_by loads_or_transforms w (snd (_cached_transform sid si w)).
Proof.
  unfold _cached_transform. pose proof (transformer_is_cached_trace sid w) as T0.
  destruct (transformer_is_cached sid w) as [[cached|e] w1]; simpl in T0;
    [|exists []; rewrite app_nil_r; split; [exact T0 | constructor]].
  destruct (nget (steps w1) sid) as [st|];
    [|exists []; rewrite app_nil_r; split; [exact T0 | constructor]].
  destruct cached; [|exists []; rewrite app_nil_r; split; [exact T0 | constructor]].
  unfold load_transformer.
  pose proof (call_transformer_trace sid
    (fun c s => (Ok tt, Transformers.base_load value c
                          (file_content w1 (exp_dir_transformers_step st)) s))
    (log w1 (EvLoad (name st)))) as T1.
  destruct (call_transformer _ _ (log w1 _)) as [[u|e] w2]; simpl in T1 |- *.
  - pose proof (call_transformer_trace sid (fun c => Transformers.base_transform value c si)
                  (log w2 (EvTransform (name st)))) as T2.
    assert (Ht : trace w2 = (trace w ++ [EvLoad (name st)])%list) by (rewrite T1, T0; reflexivity).
    assert (G : forall w4, trace w4 = trace (log w2 (EvTransform (name st))) ->
              trace_grows_by loads_or_transforms w w4).
    { intros w4 E. exists [EvLoad (name st); EvTransform (name st)]. split.
      - rewrite E. simpl. rewrite Ht, <- app_assoc. reflexivity.
      - repeat constructor. }
    destruct (call_transformer _ _ _) as [[out|e] w3]; simpl in T2 |- *; apply G;
      [rewrite store_outputs_trace|]; exact T2.
  - exists [EvLoad (name st)]. split; [congruence | repeat constructor].
Qed.

Theorem transform_never_fits (merge : stepr -> list (string * payload) -> result payload)
    fuel sid data w :
  exists ev, trace (snd (transform merge fuel sid data w)) = (trace w ++ ev)%list /\
    Forall (fun e => exists n, e = EvLoad n \/ e = EvTransform n) ev.
Proof.
  pose proof (transform_preserves (trace_grows_by loads_or_transforms)
                (trace_grows_refl _) (trace_grows_trans _) merge _cached_transform_trace
                fuel sid data w) as [ev [H F]].
  exists ev. split; [exact H|]. revert F. apply Forall_impl.
  intros [n|n|n|n] []; eauto.
Qed.



Lemma dict_set_sound w acc n i st :
  names_sound w acc -> nget (steps w) i = Some st -> name st = n ->
  names_sound w (dict_set acc n i).
Proof.
  intros H Hi Hn m j Hm. destruct (string_dec m n) as [->|Hne].
  - rewrite dict_get_set_eq in Hm. injection Hm as <-. eauto.
  - rewrite dict_get_set_neq in Hm by exact Hne. eauto.
Qed.

Lemma fold_res_rel {A B} (f : B -> A -> result B) (R : B -> B -> Prop) l :
  (forall b, R b b) -> (forall x y z, R x y -> R y z -> R x z) ->
  (forall b a b', In a l -> f b a = Ok b' -> R b b') ->
  forall b r, fold_res f l b = Ok r -> R b r.
Proof.
  intros Hr Ht. induction l as [|a l IH]; intros Hf b r H; simpl in H.
  - injection H as <-. apply Hr.
  - destruct (f b a) as [b1|e] eqn:E; simpl in H; [|discriminate].
    apply (Ht _ b1); [exact (Hf b a b1 (or_introl eq_refl) E)|].
    apply IH; [intros ? ? ? Hi; apply Hf; now right | exact H].
Qed.

Lemma fold_res_In_step {A B} (f : B -> A -> result B) (R : B -> B -> Prop) l :
  (forall b, R b b) -> (forall x y z, R x y -> R y z -> R x z) ->
  (forall b a b', In a l -> f b a = Ok b' -> R b b') ->
  forall b r x, fold_res f l b = Ok r -> In x l -> exists b1 b2, f b1 x = Ok b2 /\ R b2 r.
Proof.
  intros Hr Ht. induction l as [|a l IH]; intros Hf b r x H Hx; [destruct Hx|]. simpl in H.
  destruct (f b a) as [b1|e] eqn:E; simpl in H; [|discriminate].
  destruct Hx as [->|Hx].
  - exists b, b1. split; [exact E|].
    apply (fold_res_rel f R l Hr Ht); [intros ? ? ? Hi; apply Hf; now right | exact H].
  - apply (IH (fun b0 a0 b0' Hi => Hf b0 a0 b0' (or_intror Hi)) b1 r x H Hx).
Qed.

Lemma fold_res_err {A B} (f : B -> A -> result B) l :
  forall b e, fold_res f l b = Err e -> exists a b', In a l /\ f b' a = Err e.
Proof.
  induction l as [|a l IH]; intros b e H; simpl in H; [discriminate|].
  destruct (f b a) as [b1|e1] eqn:E; simpl in H.
  - destruct (IH b1 e H) as (a' & b' & Ha & Hf). exists a', b'. split; [now right | exact Hf].
  - injection H as ->. exists a, b. split; [now left | exact E].
Qed.

(** The shape of a successful [_get_steps] call. *)
Lemma _get_steps_Ok fuel w sid acc l :
  _get_steps fuel w sid acc = Ok l ->
  exists fuel' st acc', fuel = S fuel' /\ nget (steps w) sid = Some st /\
    fold_res (fun acc i => _get_steps fuel' w i acc) (input_steps st) acc = Ok acc' /\
    l = dict_set acc' (name st) sid.
Proof.
  intros H. destruct fuel as [|fuel]; simpl in H; [discriminate|].
  destruct (nget (steps w) sid) as [st|]; [|discriminate].
  destruct (fold_res _ _ acc) as [acc'|e] eqn:F; simpl in H; [|discriminate].
  injection H as <-. exists fuel, st, acc'. repeat split; [exact F].
Qed.

Lemma _get_steps_sound fuel w : forall sid acc l,
  _get_steps fuel w sid acc = Ok l -> names_sound w acc -> names_sound w l.
Proof.
  induction fuel as [|fuel IH]; intros sid acc l H Hs.
  - discriminate.
  - destruct (_get_steps_Ok _ _ _ _ _ H) as (f & st & acc' & Ef & Hst & F & ->).
    injection Ef as <-.
    apply (dict_set_sound w _ _ _ st); [|exact Hst|reflexivity].
    revert Hs. apply (fold_res_rel (fun acc i => _get_steps fuel w i acc) (fun a b => names_sound w a -> names_sound w b) (input_steps st)
                        (fun _ h => h) (fun _ _ _ h1 h2 h => h2 (h1 h))); [|exact F].
    intros b a b' _ E. exact (IH a b b' E).
Qed.

Lemma dict_set_keys {V} (d : list (string * V)) k v :
  forall m, In m (map fst (dict_set d k v)) <-> m = k \/ In m (map fst d).
Proof.
  intros m. induction d as [|[k' v'] d IH]; simpl.
  { split; intros [H|[]]; left; congruence. }
  destruct (String.eqb k k') eqn:E; simpl.
  - apply String.eqb_eq in E. subst. split.
    + intros [H|H]; [left; congruence | right; right; exact H].
    + intros [H|[H|H]]; [left; congruence | left; exact H | right; exact H].
  - rewrite IH. tauto.
Qed.

Lemma _get_steps_mono fuel w : forall sid acc l,
  _get_steps fuel w sid acc = Ok l -> forall m, In m (map fst acc) -> In m (map fst l).
Proof.
  induction fuel as [|fuel IH]; intros sid acc l H.
  - discriminate.
  - destruct (_get_steps_Ok _ _ _ _ _ H) as (f & st & acc' & Ef & Hst & F & ->).
    injection Ef as <-. intros m Hm. apply dict_set_keys. right.
    revert m Hm. apply (fold_res_rel (fun acc i => _get_steps fuel w i acc) (fun a b => forall m, In m (map fst a) -> In m (map fst b)) (input_steps st)
                          (fun _ _ h => h) (fun _ _ _ h1 h2 m h => h2 m (h1 m h))); [|exact F].
    intros b a b' _ E. exact (IH a b b' E).
Qed.

Lemma _get_steps_complete w k sid j (H : path w k sid j) :
  forall fuel acc l st, _get_steps fuel w sid acc = Ok l -> nget (steps w) j = Some st ->
  In (name st) (map fst l).
Proof.
  induction H as [sid st0 Hs | k sid st0 i j Hs Hi Hp IH]; intros fuel acc l st E Hj.
  - destruct (_get_steps_Ok _ _ _ _ _ E) as (f & st1 & acc' & Ef & Hst & F & ->).
    rewrite Hst in Hj. injection Hj as ->. apply dict_set_keys. now left.
  - destruct (_get_steps_Ok _ _ _ _ _ E) as (f & st1 & acc' & Ef & Hst & F & ->).
    rewrite Hs in Hst. injection Hst as <-.
    apply dict_set_keys. right.
    destruct (fold_res_In_step _ (fun a b => forall m, In m (map fst a) -> In m (map fst b)) _
                (fun _ _ h => h) (fun _ _ _ h1 h2 m h => h2 m (h1 m h))
                (fun b a b' _ E' => _get_steps_mono f w a b b' E') acc acc' i F Hi)
      as (b1 & b2 & E1 & Inc).
    apply Inc. exact (IH f b1 b2 st E1 Hj).
Qed.

Lemma dict_get_keys {V} (d : list (string * V)) k :
  In k (map fst d) -> exists v, dict_get d k = Some v.
Proof.
  induction d as [|[k' v'] d IH]; simpl; [tauto|].
  destruct (String.eqb k k') eqn:E; [eauto|].
  intros [->|H]; [now rewrite String.eqb_refl in E | auto].
Qed.

Lemma _get_steps_keys fuel w : forall sid acc l m,
  _get_steps fuel w sid acc = Ok l -> In m (map fst l) ->
  In m (map fst acc) \/ exists k i st, path w k sid i /\ nget (steps w) i = Some st /\ name st = m.
Proof.
  induction fuel as [|fuel IH]; intros sid acc l m E H.
  - discriminate.
  - destruct (_get_steps_Ok _ _ _ _ _ E) as (f & st & acc' & Ef & Hst & F & ->).
    injection Ef as <-. apply dict_set_keys in H as [->|H].
    { right. exists 0, sid, st. split; [econstructor; exact Hst | auto]. }
    revert H. apply (fold_res_rel (fun acc i => _get_steps fuel w i acc)
      (fun a b => In m (map fst b) -> In m (map fst a) \/
                  exists k i st', path w k sid i /\ nget (steps w) i = Some st' /\ name st' = m) (input_steps st)
      (fun _ h => or_introl h)); [| |exact F].
    + intros x y z H1 H2 H. destruct (H2 H) as [H3|H3]; [exact (H1 H3) | now right].
    + intros b a b' Ha E' H. destruct (IH a b b' m E' H) as [H1|(k & j & st' & Hp & Hj & Hn)]; [now left|].
      right. exists (S k), j, st'. split; [eapply path_cons; eauto | auto].
Qed.

(** A successful [_get_steps] visits no path as long as its fuel. *)
Lemma _get_steps_depth w k sid j (H : path w k sid j) :
  forall fuel acc l, _get_steps fuel w sid acc = Ok l -> k < fuel.
Proof.
  induction H as [sid st0 Hs | k sid st0 i j Hs Hi Hp IH]; intros fuel acc l E;
    destruct (_get_steps_Ok _ _ _ _ _ E) as (f & st1 & acc' & -> & Hst & F & _); [lia|].
  rewrite Hs in Hst. injection Hst as <-.
  destruct (fold_res_In_step _ (fun _ _ => True) _ (fun _ => I) (fun _ _ _ _ _ => I)
              (fun _ _ _ _ _ => I) acc acc' i F Hi) as (b1 & b2 & E1 & _).
  specialize (IH f b1 b2 E1). lia.
Qed.

(** When every input step exists, [_get_steps] can only fail by
    exhausting the recursion limit. *)
Lemma _get_steps_err w (Hd : inputs_defined w) fuel : forall sid st acc e,
  nget (steps w) sid = Some st -> _get_steps fuel w sid acc = Err e -> e = RecursionError.
Proof.
  induction fuel as [|fuel IH]; intros sid st acc e Hs E; simpl in E.
  - congruence.
  - rewrite Hs in E. destruct (fold_res _ _ acc) as [acc'|e1] eqn:F; simpl in E; [discriminate|].
    injection E as ->. destruct (fold_res_err _ _ _ _ F) as (a & b & Ha & Ea).
    destruct (Hd sid st a Hs Ha) as [st' Hst']. exact (IH a st' b e Hst' Ea).
Qed.

Lemma path_app w a x y (H : path w a x y) : forall b z, path w b y z -> path w (a + b) x z.
Proof.
  induction H as [sid st Hs | k sid st i j Hs Hi Hp IH]; intros b z Hb; [exact Hb|].
  simpl. eapply path_cons; [exact Hs | exact Hi | apply IH, Hb].
Qed.

Lemma path_start w k sid j : path w k sid j -> exists st, nget (steps w) sid = Some st.
Proof. intros H. destruct H; eauto. Qed.

Lemma path_pump w m sid j k :
  path w m sid j -> path w (S k) j j -> forall N, exists n, N <= n /\ path w n sid j.
Proof.
  intros H0 Hc N. induction N as [|N [n [Hn Hp]]]; [exists m; split; [lia | exact H0]|].
  exists (n + S k). split; [lia|]. exact (path_app w n sid j Hp (S k) j Hc).
Qed.

Lemma In_dict_set {V} (d : list (string * V)) k v kv :
  In kv (dict_set d k v) -> kv = (k, v) \/ In kv d.
Proof.
  induction d as [|[k' v'] d IH]; simpl; [intros [H|[]]; left; congruence|].
  destruct (String.eqb k k') eqn:E; simpl.
  - apply String.eqb_eq in E. subst. intros [H|H]; [left; congruence | tauto].
  - intros [H|H]; [tauto|]. destruct (IH H); tauto.
Qed.

Lemma _get_steps_ids fuel w : forall sid acc l,
  _get_steps fuel w sid acc = Ok l ->
  (forall ns, In ns acc -> exists st, nget (steps w) (snd ns) = Some st) ->
  forall ns, In ns l -> exists st, nget (steps w) (snd ns) = Some st.
Proof.
  induction fuel as [|fuel IH]; intros sid acc l E.
  - discriminate.
  - destruct (_get_steps_Ok _ _ _ _ _ E) as (f & st & acc' & Ef & Hst & F & ->).
    injection Ef as <-. intros H ns Hns. apply In_dict_set in Hns as [->|Hns]; [eauto|].
    revert ns Hns. revert H.
    apply (fold_res_rel (fun acc i => _get_steps fuel w i acc) (fun a b => (forall ns, In ns a -> exists st, nget (steps w) (snd ns) = Some st) ->
                                      forall ns, In ns b -> exists st, nget (steps w) (snd ns) = Some st) (input_steps st)
             (fun _ h => h) (fun _ _ _ h1 h2 h => h2 (h1 h))); [|exact F].
    intros b a b' _ E'. exact (IH a b b' E').
Qed.

Lemma remove_file_get w p q :
  dict_get (files (remove_file w p)) q = if String.eqb q p then None else dict_get (files w) q.
Proof.
  unfold remove_file. simpl. induction (files w) as [|[k v] fs IH]; simpl.
  - now destruct (String.eqb q p).
  - destruct (String.eqb k p) eqn:Ekp; simpl.
    + apply String.eqb_eq in Ekp. subst. rewrite IH.
      destruct (String.eqb q p); reflexivity.
    + rewrite IH. destruct (String.eqb q k) eqn:Eqk; [|reflexivity].
      apply String.eqb_eq in Eqk. subst. now rewrite Ekp.
Qed.

Lemma _clean_cache_get w i st :
  nget (steps w) i = Some st ->
  exists w1, _clean_cache w i = Ok w1 /\ steps w1 = steps w /\ objs w1 = objs w /\
    trace w1 = trace w /\
    forall p, dict_get (files w1) p =
      if String.eqb p (exp_dir_tmp_step st) then None else dict_get (files w) p.
Proof.
  intros Hi. unfold _clean_cache. rewrite Hi.
  destruct (exists_ w (exp_dir_tmp_step st)) eqn:Ex.
  - eexists. split; [reflexivity|]. repeat split. intros p. apply remove_file_get.
  - eexists. split; [reflexivity|]. repeat split. intros p.
    destruct (String.eqb p (exp_dir_tmp_step st)) eqn:E; [|reflexivity].
    apply String.eqb_eq in E. subst. unfold exists_ in Ex.
    destruct (dict_get (files w) (exp_dir_tmp_step st)); congruence.
Qed.

Lemma fold_clean_cache w (l : list (string * nat)) :
  (forall ns, In ns l -> exists st, nget (steps w) (snd ns) = Some st) ->
  exists w', fold_res (fun w ns => _clean_cache w (snd ns)) l w = Ok w' /\
    steps w' = steps w /\ objs w' = objs w /\ trace w' = trace w /\
    forall p, dict_get (files w') p =
      if existsb (is_tmp_of w p) l then None else dict_get (files w) p.
Proof.
  revert w. induction l as [ |ns l IH]; intros w Hl; simpl.
  - eexists. repeat split.
  - destruct (Hl ns (or_introl eq_refl)) as [st Hst].
    destruct (_clean_cache_get w (snd ns) st Hst) as (w1 & E1 & S1 & O1 & T1 & F1).
    rewrite E1. simpl.
    destruct (IH w1) as (w' & E' & S' & O' & T' & F').
    { intros ns' H'. rewrite S1. apply Hl. now right. }
    exists w'. split; [exact E'|]. split; [congruence|]. split; [congruence|]. split; [congruence|].
    intros p. rewrite F', F1.
    assert (Hx : existsb (is_tmp_of w1 p) l = existsb (is_tmp_of w p) l).
    { unfold is_tmp_of. now rewrite S1. }
    rewrite Hx. replace (is_tmp_of w p ns) with (String.eqb p (exp_dir_tmp_step st)) by (unfold is_tmp_of; now rewrite Hst).
    destruct (String.eqb p (exp_dir_tmp_step st)), (existsb (is_tmp_of w p) l); reflexivity.
Qed.

Lemma add_node_nodes sd n x : In x (s_nodes (add_node sd n)) <-> x = n \/ In x (s_nodes sd).
Proof.
  unfold add_node. destruct (existsb (String.eqb n) (s_nodes sd)) eqn:E; simpl.
  - apply existsb_exists in E as [y [Hy Ey]]. apply String.eqb_eq in Ey. subst.
    split; [tauto|]. intros [->|H]; auto.
  - rewrite in_app_iff. simpl. split; intros [H|H]; try tauto; [destruct H as [H|[]]|]; auto.
Qed.

Lemma add_node_edges sd n : s_edges (add_node sd n) = s_edges sd.
Proof. unfold add_node. now destruct (existsb _ _). Qed.

Lemma add_edge_nodes sd e : s_nodes (add_edge sd e) = s_nodes sd.
Proof. unfold add_edge. now destruct (existsb _ _). Qed.

Lemma add_edge_edges sd e x : In x (s_edges (add_edge sd e)) <-> x = e \/ In x (s_edges sd).
Proof.
  unfold add_edge. destruct (existsb _ (s_edges sd)) eqn:E; simpl.
  - apply existsb_exists in E as [y [Hy Ey]]. apply andb_true_iff in Ey as [E1 E2].
    apply String.eqb_eq in E1, E2. destruct e, y; simpl in *; subst.
    split; [tauto|]. intros [->|H]; auto.
  - rewrite in_app_iff. simpl. split; intros [H|H]; try tauto; [destruct H as [H|[]]|]; auto.
Qed.

Lemma build_closed w fuel : forall sid sd sd' pending,
  closed_but pending sd -> _build_structure_dict fuel w sid sd = Ok sd' ->
  closed_but pending sd' /\ incl (s_nodes sd) (s_nodes sd') /\
  exists st, nget (steps w) sid = Some st /\ In (name st) (s_nodes sd').
Proof.
  induction fuel as [|fuel IH]; intros sid sd sd' pending Hc H; simpl in H; [discriminate|].
  destruct (nget (steps w) sid) as [st|] eqn:Hs; [|discriminate].
  assert (G : forall l sd0 sd1, closed_but (name st :: pending) sd0 ->
            fold_res (fun sd i =>
                   sd' <- _build_structure_dict fuel w i sd ;;
                   match nget (steps w) i with
                   | Some ist => Ok (add_edge sd' (name ist, name st))
                   | None => Err AttributeError
                   end) l sd0 = Ok sd1 ->
            closed_but (name st :: pending) sd1 /\ incl (s_nodes sd0) (s_nodes sd1)).
  { induction l as [|i l IHl]; intros sd0 sd1 H0 E; simpl in E.
    - injection E as <-. split; [exact H0 | apply incl_refl].
    - destruct (_build_structure_dict fuel w i sd0) as [sdi|e] eqn:Ei; simpl in E; [|discriminate].
      destruct (IH i sd0 sdi _ H0 Ei) as (Ci & Ii & sti & Hsti & Ni).
      rewrite Hsti in E.
      assert (Ci' : closed_but (name st :: pending) (add_edge sdi (name sti, name st))).
      { intros u v Huv. rewrite add_edge_nodes. apply add_edge_edges in Huv as [Huv|Huv].
        - injection Huv as -> ->. split; [exact Ni | right; now left].
        - exact (Ci u v Huv). }
      destruct (IHl _ _ Ci' E) as [C1 I1].
      split; [exact C1|]. intros x Hx. apply I1. rewrite add_edge_nodes. now apply Ii. }
  destruct (fold_res _ (input_steps st) sd) as [sd1|e] eqn:E1; simpl in H; [|discriminate].
  injection H as <-.
  assert (Hc' : closed_but (name st :: pending) sd).
  { intros u v Huv. destruct (Hc u v Huv) as [A [B|B]]; split; auto; right; now right. }
  destruct (G _ _ _ Hc' E1) as [C1 I1].
  assert (C2 : closed_but pending (add_node sd1 (name st)) /\ incl (s_nodes sd) (s_nodes (add_node sd1 (name st)))
               /\ In (name st) (s_nodes (add_node sd1 (name st)))).
  { split; [|split].
    - intros u v Huv. rewrite add_node_edges in Huv. destruct (C1 u v Huv) as [A B].
      split; [apply add_node_nodes; now right|].
      destruct B as [B|[<-|B]]; [left; apply add_node_nodes; now right | left; apply add_node_nodes; now left | now right].
    - intros x Hx. apply add_node_nodes. right. now apply I1.
    - apply add_node_nodes. now left. }
  destruct C2 as (C2 & I2 & N2).
  revert C2 I2 N2. generalize (add_node sd1 (name st)) as sd2.
  induction (input_data st) as [|d ds IHd]; intros sd2 C2 I2 N2; simpl.
  - split; [exact C2|]. split; [exact I2|]. eauto.
  - apply IHd.
    + intros u v Huv. rewrite add_edge_nodes. apply add_edge_edges in Huv as [Huv|Huv].
      * injection Huv as -> ->. split; [apply add_node_nodes; now left | left; apply add_node_nodes; now right].
      * rewrite add_node_edges in Huv. destruct (C2 u v Huv) as [A B].
        split; [apply add_node_nodes; now right|].
        destruct B as [B|B]; [left; apply add_node_nodes; now right | now right].
    + intros x Hx. rewrite add_edge_nodes. apply add_node_nodes. right. now apply I2.
    + rewrite add_edge_nodes. apply add_node_nodes. now right.
Qed.

Theorem engine_keeps_step_config (merge : stepr -> list (string * payload) -> result payload)
    fuel sid data w :
  (forall i st, nget (steps w) i = Some st ->
     exists t, nget (steps (snd (fit_transform merge fuel sid data w))) i
               = Some (with_transformer st t)) /\
  (forall i st, nget (steps w) i = Some st ->
     exists t, nget (steps (snd (transform merge fuel sid data w))) i
               = Some (with_transformer st t)) /\
  (forall i, nget (steps w) i = None ->
     nget (steps (snd (fit_transform merge fuel sid data w))) i = None) /\
  (forall i, nget (steps w) i = None ->
     nget (steps (snd (transform merge fuel sid data w))) i = None).
Proof.
  split; [exact (fit_transform_kept merge fuel sid data w)|].
  split; [exact (transform_kept merge fuel sid data w)|].
  split; [exact (fit_transform_no_new merge fuel sid data w) | exact (transform_no_new merge fuel sid data w)].
Qed.

Theorem cached_fit_transform_persists sid (si : payload) w out w' st :
  _cached_fit_transform sid si w = (Ok out, w') -> nget (steps w') sid = Some st ->
  exists_ w' (exp_dir_transformers_step st) = true /\
  (cache_output st = true -> dict_get (files w') (exp_dir_tmp_step st) = Some (FOutput out)) /\
  (save_output st = true -> dict_get (files w') (exp_dir_outputs_step st) = Some (FOutput out)).
Proof.
  intros H Hs. destruct (_cached_fit_transform_files sid si w out w' H st Hs) as (A & B & C).
  auto.
Qed.

Lemma cached_fit_transform_persists_witness :
  _cached_fit_transform 1 [("features", VInt 5)] caching_world
    = (Ok [("features", VInt 5)], snd (_cached_fit_transform 1 [("features", VInt 5)] caching_world)) /\
  nget (steps (snd (_cached_fit_transform 1 [("features", VInt 5)] caching_world))) 1
    = Some caching_step /\
  exists_ (snd (_cached_fit_transform 1 [("features", VInt 5)] caching_world))
    (exp_dir_transformers_step caching_step) = true.
Proof.
  assert (E : _cached_fit_transform 1 [("features", VInt 5)] caching_world
    = (Ok [("features", VInt 5)], snd (_cached_fit_transform 1 [("features", VInt 5)] caching_world)))
    by (vm_compute; reflexivity).
  assert (Hs : nget (steps (snd (_cached_fit_transform 1 [("features", VInt 5)] caching_world))) 1
    = Some caching_step) by (vm_compute; reflexivity).
  split; [exact E|]. split; [exact Hs|].
  exact (proj1 (cached_fit_transform_persists _ _ _ _ _ _ E Hs)).
Defined.

Lemma cached_output_round_trip_witness :
  fit_transform steppy_merge 10 1 data_1 caching_world
    = (Ok [("features", VInt 5)], snd (fit_transform steppy_merge 10 1 data_1 caching_world)) /\
  transform steppy_merge 10 1 [] (snd (fit_transform steppy_merge 10 1 data_1 caching_world))
    = (Ok [("features", VInt 5)], snd (fit_transform steppy_merge 10 1 data_1 caching_world)).
Proof.
  assert (E : fit_transform steppy_merge 10 1 data_1 caching_world
    = (Ok [("features", VInt 5)], snd (fit_transform steppy_merge 10 1 data_1 caching_world)))
    by (vm_compute; reflexivity).
  split; [exact E|].
  exact (proj1 (cached_output_round_trip steppy_merge steppy_merge 10 9 1 data_1 [] caching_world
                  caching_step _ _ eq_refl eq_refl (or_introl E))).
Defined.

Theorem upstream_structure_closed fuel w sid sd :
  upstream_pipeline_structure fuel w sid = Ok sd ->
  (forall u v, In (u, v) (s_edges sd) -> In u (s_nodes sd) /\ In v (s_nodes sd)) /\
  exists st, nget (steps w) sid = Some st /\ In (name st) (s_nodes sd).
Proof.
  intros H.
  assert (H0 : closed_but [] empty_structure) by (intros u v []).
  destruct (build_closed w fuel sid empty_structure sd [] H0 H) as (C & _ & N).
  split; [|exact N]. intros u v Huv. destruct (C u v Huv) as [A [B|[]]]. auto.
Qed.

Lemma upstream_structure_closed_witness :
  upstream_pipeline_structure 10 chain_world 2
    = Ok (mkStructure [("input_1", "a"); ("a", "b")] ["a"; "input_1"; "b"]) /\
  exists st, nget (steps chain_world) 2 = Some st /\ In (name st) ["a"; "input_1"; "b"].
Proof.
  assert (E : upstream_pipeline_structure 10 chain_world 2
    = Ok (mkStructure [("input_1", "a"); ("a", "b")] ["a"; "input_1"; "b"]))
    by (vm_compute; reflexivity).
  split; [exact E|].
  exact (proj2 (upstream_structure_closed _ _ _ _ E)).
Defined.

(** [get_step(name)] of a pipeline whose [all_steps] succeeds: a step it
    returns has the name asked for; it raises [KeyError] when no step
    upstream of the pipeline (itself included) has that name, and finds a
    step for every upstream name; the pipeline's own name gives the
    pipeline itself, even when an upstream step has the same name. *)
Theorem get_step_by_name fuel w sid l :
  all_steps fuel w sid = Ok l ->
  (forall n i, get_step fuel w sid n = Ok i -> exists st, nget (steps w) i = Some st /\ name st = n) /\
  (forall n, (forall k i st, path w k sid i -> nget (steps w) i = Some st -> name st <> n) ->
     get_step fuel w sid n = Err KeyError) /\
  (forall k j st, path w k sid j -> nget (steps w) j = Some st ->
     exists i, get_step fuel w sid (name st) = Ok i) /\
  (forall st, nget (steps w) sid = Some st -> get_step fuel w sid (name st) = Ok sid).
Proof.
  intros E. unfold get_step. rewrite E. cbn [bind]. unfold dict_lookup.
  split; [|split; [|split]].
  - intros n i H. destruct (dict_get l n) eqn:G; [|discriminate]. injection H as <-.
    apply (_get_steps_sound fuel w sid [] l E) in G; [exact G|]. intros m j Hm; discriminate.
  - intros n Hn. destruct (dict_get l n) as [i|] eqn:G; [|reflexivity]. exfalso.
    apply dict_get_In, (in_map fst) in G. simpl in G.
    destruct (_get_steps_keys fuel w sid [] l n E G) as [[]|(k & i' & st & Hp & Hi & <-)].
    exact (Hn k i' st Hp Hi eq_refl).
  - intros k j st Hp Hj.
    destruct (dict_get_keys _ (name st) (_get_steps_complete w k sid j Hp fuel [] l st E Hj)) as [i Hi].
    rewrite Hi. eauto.
  - intros st Hs. destruct (_get_steps_Ok _ _ _ _ _ E) as (f & st1 & acc' & _ & Hst & _ & ->).
    rewrite Hs in Hst. injection Hst as <-. rewrite dict_get_set_eq. reflexivity.
Qed.

Lemma get_step_by_name_witness :
  all_steps 10 chain_world 2 = Ok [("a", 1); ("b", 2)] /\ get_step 10 chain_world 2 "b" = Ok 2.
Proof.
  assert (E : all_steps 10 chain_world 2 = Ok [("a", 1); ("b", 2)]) by (vm_compute; reflexivity).
  split; [exact E|].
  exact (proj2 (proj2 (proj2 (get_step_by_name 10 chain_world 2 _ E))) _ eq_refl).
Defined.

(** [clean_cache] of src/steps/base.py on a pipeline whose [all_steps]
    succeeds does not raise: it removes exactly the tmp output files of
    the steps of [all_steps] and leaves every other file, the steps, the
    transformers and the trace as they were. *)
Theorem clean_cache_removes_tmp fuel w sid l :
  all_steps fuel w sid = Ok l ->
  exists w', clean_cache fuel w sid = Ok w' /\
    steps w' = steps w /\ objs w' = objs w /\ trace w' = trace w /\
    forall p, dict_get (files w') p =
      if existsb (is_tmp_of w p) l then None else dict_get (files w) p.
Proof.
  intros E. unfold clean_cache. rewrite E. cbn [bind].
  apply fold_clean_cache. apply (_get_steps_ids fuel w sid [] l E). intros ns [].
Qed.

Lemma clean_cache_removes_tmp_witness :
  all_steps 10 cached_world 1 = Ok [("s", 1)] /\
  exists w', clean_cache 10 cached_world 1 = Ok w' /\
    steps w' = steps cached_world /\ objs w' = objs cached_world /\ trace w' = trace cached_world /\
    forall p, dict_get (files w') p =
      if existsb (is_tmp_of cached_world p) [("s", 1)] then None else dict_get (files cached_world) p.
Proof.
  assert (E : all_steps 10 cached_world 1 = Ok [("s", 1)]) by (vm_compute; reflexivity).
  split; [exact E|]. exact (clean_cache_removes_tmp 10 cached_world 1 _ E).
Defined.

(** On a pipeline where a step is reached again from itself along
    [input_steps] (a cycle upstream of the pipeline), [all_steps] raises
    [RecursionError] whatever the recursion limit, and so do [get_step]
    and [clean_cache], which call it first. *)
Theorem all_steps_cycle_raises w m k sid j :
  inputs_defined w -> path w m sid j -> path w (S k) j j ->
  forall fuel, all_steps fuel w sid = Err RecursionError /\
    (forall n, get_step fuel w sid n = Err RecursionError) /\
    clean_cache fuel w sid = Err RecursionError.
Proof.
  intros Hd H0 Hc fuel.
  assert (E : all_steps fuel w sid = Err RecursionError).
  { unfold all_steps. destruct (_get_steps fuel w sid []) as [l|e] eqn:E.
    - exfalso. destruct (path_pump w m sid j k H0 Hc fuel) as (n & Hn & Hp).
      pose proof (_get_steps_depth w n sid j Hp fuel [] l E). lia.
    - destruct (path_start w m sid j H0) as [st Hs].
      f_equal. exact (_get_steps_err w Hd fuel sid st [] e Hs E). }
  unfold get_step, clean_cache. rewrite E.
  split; [reflexivity | split; [intros n; reflexivity | reflexivity]].
Qed.

Lemma all_steps_cycle_raises_witness :
  inputs_defined loop_world /\ path loop_world 0 1 1 /\ path loop_world 1 1 1 /\
  clean_cache 1000 loop_world 1 = Err RecursionError.
Proof.
  assert (Hd : inputs_defined loop_world).
  { intros i st j Hi Hj. simpl in Hi. destruct (Nat.eqb i 1); [|discriminate].
    injection Hi as <-. simpl in Hj. destruct Hj as [<-|[]]. eexists. reflexivity. }
  assert (P0 : path loop_world 0 1 1) by (eapply path_nil; reflexivity).
  assert (P1 : path loop_world 1 1 1)
    by (eapply path_cons; [reflexivity | simpl; left; reflexivity | exact P0]).
  split; [exact Hd|]. split; [exact P0|]. split; [exact P1|].
  exact (proj2 (proj2 (all_steps_cycle_raises loop_world 0 0 1 1 Hd P0 P1 1000))).
Defined.

End EngineFacts.
